(** * LexSaksham: the clause analysis and risk-decisioning pipeline

    A shallow embedding of [backend/ai_service/app.py]: the helpers
    [translate_to_english], [generate_t5_summary],
    [generate_gemini_safer_alternative], the orchestrator
    [analyze_single_clause] and the routes [analyze_document] and
    [summarize].

    Python strings are sequences of Unicode code points and numbers are
    rationals.  Calls that leave the service's own code (translator,
    classifier, summarizer, chat completion API, LIME) are functions of an
    environment; every such call is recorded in a log, and a call may
    raise.  What the service prints is left out. *)

From Stdlib Require Import ZArith NArith QArith List String Ascii Bool Lia.
From stdpp Require Import base gmap strings list.

Set Default Proof Using "Type".

(* ================================================================== *)
(** * Part I. Definitions                                              *)
(* ================================================================== *)

(** ** Python [str] *)

(** A [str] is a list of code points; [len] is [length]. *)
Abbreviation pystr := (list N).

(** An ASCII literal of the source as a [str]. *)
Definition py (s : string) : pystr := map N_of_ascii (list_ascii_of_string s).

(** [s.startswith(prefix)] *)
Fixpoint str_startswith (s prefix : pystr) {struct prefix} : bool :=
  match prefix, s with
  | [], _ => true
  | _ :: _, [] => false
  | p :: prefix', c :: s' => (c =? p)%N && str_startswith s' prefix'
  end.

(** [sub in s]: [sub] occurs in [s] as a contiguous run. *)
Fixpoint str_contains (sub s : pystr) : bool :=
  str_startswith s sub ||
  match s with
  | [] => false
  | _ :: s' => str_contains sub s'
  end.

(** [lit in s] for an ASCII literal [lit] of the source. *)
Definition has (lit : string) (s : pystr) : bool := str_contains (py lit) s.

(** The characters [str.strip()] removes: CPython's
    [_PyUnicode_IsWhitespace]. *)
Definition Py_UNICODE_ISSPACE (c : N) : bool :=
  ((9 <=? c) && (c <=? 13) || (28 <=? c) && (c <=? 32)
   || (c =? 133) || (c =? 160) || (c =? 5760)
   || (8192 <=? c) && (c <=? 8202)
   || (c =? 8232) || (c =? 8233) || (c =? 8239) || (c =? 8287)
   || (c =? 12288))%N.

Fixpoint str_lstrip (drop : N -> bool) (s : pystr) : pystr :=
  match s with
  | [] => []
  | c :: s' => if drop c then str_lstrip drop s' else s
  end.

Fixpoint str_rstrip (drop : N -> bool) (s : pystr) : pystr :=
  match s with
  | [] => []
  | c :: s' =>
      match str_rstrip drop s' with
      | [] => if drop c then [] else [c]
      | t => c :: t
      end
  end.

(** [s.strip()] when [drop] is [Py_UNICODE_ISSPACE], [s.strip(chars)] when
    [drop] is membership in [chars]. *)
Definition str_strip (drop : N -> bool) (s : pystr) : pystr :=
  str_rstrip drop (str_lstrip drop s).

Definition strip (s : pystr) : pystr := str_strip Py_UNICODE_ISSPACE s.

Definition strip_chars (chars : pystr) (s : pystr) : pystr :=
  str_strip (fun c => existsb (N.eqb c) chars) s.

(** [s.split(sep)] for a separator of one character. *)
Fixpoint str_split (sep : N) (s : pystr) : list pystr :=
  match s with
  | [] => [[]]
  | c :: s' =>
      if (c =? sep)%N then [] :: str_split sep s'
      else match str_split sep s' with
           | [] => [[c]]
           | w :: ws => (c :: w) :: ws
           end
  end.

(** [s.replace(old, new)]: the occurrences of [old] are replaced from left
    to right, without overlap.  [skip] counts the characters of a matched
    occurrence that are still to be passed over. *)
Fixpoint replace_from (old new : pystr) (skip : nat) (s : pystr) : pystr :=
  match s with
  | [] => []
  | c :: s' =>
      match skip with
      | S k => replace_from old new k s'
      | O =>
          if str_startswith s old
          then new ++ replace_from old new (length old - 1) s'
          else c :: replace_from old new 0 s'
      end
  end.

Definition str_replace (old new s : pystr) : pystr :=
  match old with
  | [] => new ++ flat_map (fun c => c :: new) s
  | _ :: _ => replace_from old new 0 s
  end.

(** Truth value of a [str]: non-empty. *)
Definition truthy (s : pystr) : bool :=
  match s with [] => false | _ :: _ => true end.

(** [a == b] *)
Fixpoint str_eqb (a b : pystr) : bool :=
  match a, b with
  | [], [] => true
  | x :: a', y :: b' => (x =? y)%N && str_eqb a' b'
  | _, _ => false
  end.

(** Lines of a multi-line literal, joined by newlines. *)
Fixpoint lines (ls : list pystr) : pystr :=
  match ls with
  | [] => []
  | [l] => l
  | l :: ls' => l ++ 10%N :: lines ls'
  end.

(** The double quote, which the literals below splice in. *)
Definition dquote : pystr := [34%N].

(** ** [round(x, ndigits)]

    Numbers are rationals; [round] rounds to the nearest multiple of
    [10^-ndigits], a tie going to the even one. *)

Definition round_half_even (x : Q) : Z :=
  let n := Qnum x in
  let d := Zpos (Qden x) in
  let q := (n / d)%Z in
  let r := (n mod d)%Z in
  match (2 * r ?= d)%Z with
  | Lt => q
  | Gt => (q + 1)%Z
  | Eq => if Z.even q then q else (q + 1)%Z
  end.

Definition round (x : Q) (ndigits : nat) : Q :=
  Qmake (round_half_even (x * inject_Z (10 ^ Z.of_nat ndigits))%Q)
        (Z.to_pos (10 ^ Z.of_nat ndigits)).

(** ** External calls, exceptions and the call log *)

(** The result of evaluating a Python expression that may raise. *)
Inductive outcome (A : Type) : Type :=
| Returned (a : A)
| Raised.
Arguments Returned {A} a.
Arguments Raised {A}.

(** The JSON body posted to the chat completion API. *)
Record ChatPayload := {
  model : pystr;
  messages : list (pystr * pystr);      (* role, content *)
  temperature : Q;
  max_tokens : Z
}.

(** What the service reads of the API's answer: [data.get('choices')], and
    for each choice the value of [choice['message']['content']], whose
    lookup raises when a key is missing. *)
Record ChatData := {
  choices : option (list (outcome pystr))
}.

Record Response := {
  status_code : Z;
  json : outcome ChatData               (* response.json() *)
}.

(** The calls that leave the service's own code. *)
Inductive call : Type :=
| Translate (text : pystr)
| Classify (text : pystr)
| Summarize (text : pystr)
| ChatCompletion (payload : ChatPayload)
| Explain (text : pystr) (pred_id : N).

(** What the service takes from outside: Python's [str.lower], the
    resources read by [load_resources] and the external models and
    services.  [bert] stands for tokenizer and model together and gives
    the argmax class with its softmax probability. *)
Record Env := {
  lower : pystr -> pystr;
  id2label : gmap N pystr;
  risk_rules : gmap string (list pystr);
  translator_translate : pystr -> outcome pystr;
  bert : pystr -> outcome (N * Q);
  t5 : pystr -> outcome pystr;
  requests_post : ChatPayload -> outcome Response;
  explain_instance : pystr -> N -> outcome (list (pystr * Q))
}.

(** A computation: the external calls it made, in order, and its outcome. *)
Definition IO (A : Type) : Type := (list call * outcome A)%type.

#[global] Instance IO_ret : MRet IO := fun A a => ([], Returned a).

#[global] Instance IO_bind : MBind IO := fun A B f m =>
  match m with
  | (log, Returned a) => let (log', r) := f a in (log ++ log', r)
  | (log, Raised) => (log, Raised)
  end.

(** An external call: logged, and its outcome passed on. *)
Definition external {A : Type} (c : call) (r : outcome A) : IO A := ([c], r).

(** An expression of the service's own code that may raise. *)
Definition eval {A : Type} (r : outcome A) : IO A := ([], r).

(** [try: body / except: handler] *)
Definition try_except {A : Type} (body handler : IO A) : IO A :=
  match body with
  | (log, Returned a) => (log, Returned a)
  | (log, Raised) => let (log', r) := handler in (log ++ log', r)
  end.

(** [for x in xs: ys.append(f(x))] *)
Fixpoint for_each {A B : Type} (f : A -> IO B) (xs : list A) : IO (list B) :=
  match xs with
  | [] => mret []
  | x :: xs' => y ← f x; ys ← for_each f xs'; mret (y :: ys)
  end.

Definition calls {A : Type} (m : IO A) : list call := fst m.
Definition result {A : Type} (m : IO A) : outcome A := snd m.

(** ** Helper functions of the service *)

(** The two Hindi words [translate_to_english] looks for:
    उत्तरदायी and हर्ज़ाना. *)
Definition uttardayi : pystr :=
  [2313; 2340; 2381; 2340; 2352; 2342; 2366; 2351; 2368]%N.
Definition harzana : pystr :=
  [2361; 2352; 2381; 2332; 2364; 2366; 2344; 2366]%N.

Definition liable_sentence : pystr :=
  py "If a party breaches the contract, they will be liable to pay damages.".

Definition translate_to_english (E : Env) (text : pystr) : IO pystr :=
  try_except
    (if str_contains uttardayi text || str_contains harzana text
     then mret liable_sentence
     else external (Translate text) (translator_translate E text))
    (mret text).

Definition generate_t5_summary (E : Env) (text : pystr) : IO pystr :=
  try_except
    (let prefix := py "summarize: " in
     external (Summarize (prefix ++ text)) (t5 E (prefix ++ text)))
    (mret (py "Summary unavailable.")).

Definition GEMINI_MODEL : pystr := py "google/gemini-2.5-flash-lite".

Definition refine_system_prompt : pystr := lines [
  py "You are a legal expert specializing in Indian contract law. Your task is to REFINE an existing clause template to make it slightly more context-aware while keeping it CONCISE.";
  [];
  py "CRITICAL REQUIREMENTS:";
  py "1. Keep the suggestion SHORT and CONCISE (1-3 sentences maximum, under 200 words)";
  py "2. Maintain the structure and intent of the provided template";
  py "3. Only make minor improvements for context-awareness";
  py "4. Do NOT expand into multiple paragraphs or detailed definitions";
  py "5. Generate ONLY the refined clause text, no explanations" ].

Definition refine_user_prompt
    (clause_text clause_label risk_level ml_suggestion : pystr) : pystr := lines [
  py "Original Clause: " ++ dquote ++ clause_text ++ dquote;
  py "Clause Type: " ++ clause_label;
  py "Risk Level: " ++ risk_level;
  [];
  py "Template to refine: " ++ dquote ++ ml_suggestion ++ dquote;
  [];
  py "Refine this template to be slightly more context-aware while keeping it SHORT and CONCISE (1-3 sentences). Do NOT expand it into a long detailed clause.";
  [];
  py "Refined clause (SHORT, 1-3 sentences only):" ].

Definition fresh_system_prompt : pystr := lines [
  py "You are a legal expert specializing in Indian contract law. Generate a SHORT, CONCISE safer alternative clause.";
  [];
  py "CRITICAL REQUIREMENTS:";
  py "1. Keep it SHORT (1-3 sentences maximum, under 200 words)";
  py "2. No long definitions or multiple paragraphs";
  py "3. Direct, clear, and enforceable";
  py "4. Compliant with Indian Contract Act, 1872";
  py "5. Generate ONLY the clause text, no explanations" ].

Definition fresh_user_prompt
    (clause_text clause_label risk_level rule_summary : pystr) : pystr := lines [
  py "Original Clause: " ++ dquote ++ clause_text ++ dquote;
  py "Clause Type: " ++ clause_label;
  py "Risk Level: " ++ risk_level;
  py "Analysis: " ++ rule_summary;
  [];
  py "Generate a SHORT, CONCISE safer alternative (1-3 sentences only, under 200 words):" ].

(** The prefixes removed from the API's answer, in the order of the loop. *)
Definition common_prefixes : list pystr :=
  [ py "Safer clause:"; py "Alternative:"; py "Here's a safer alternative:";
    py "Safer alternative:"; py "Refined clause:" ].

(** One round of the prefix loop. *)
Definition remove_prefix (E : Env) (gemini_suggestion prefix : pystr) : pystr :=
  if str_startswith (lower E gemini_suggestion) (lower E prefix)
  then strip (drop (length prefix) gemini_suggestion)
  else gemini_suggestion.

(** The first half of [generate_gemini_safer_alternative]: the prompts, by
    whether there is a template to refine, and the payload. *)
Definition chat_payload
    (clause_text clause_label risk_level rule_summary ml_suggestion : pystr)
    : ChatPayload :=
  let '(system_prompt, user_prompt, max_tokens) :=
    if truthy ml_suggestion && (50 <? length ml_suggestion)
    then (refine_system_prompt,
          refine_user_prompt clause_text clause_label risk_level ml_suggestion,
          150%Z)
    else (fresh_system_prompt,
          fresh_user_prompt clause_text clause_label risk_level rule_summary,
          200%Z) in
  {| model := GEMINI_MODEL;
     messages := [ (py "system", system_prompt); (py "user", user_prompt) ];
     temperature := (1 # 2)%Q;
     max_tokens := max_tokens |}.

(** The second half: what is made of the response.  [None] is Python's
    [None], also where the function ends without [return]. *)
Definition read_response (E : Env) (response : Response) : IO (option pystr) :=
  if (status_code response =? 200)%Z then
    data ← eval (json response);
    match choices data with
    | Some (first :: _) =>
        content ← eval first;
        let gemini_suggestion := strip content in
        let gemini_suggestion :=
          strip (strip_chars (py "'") (strip_chars dquote gemini_suggestion)) in
        let gemini_suggestion :=
          fold_left (remove_prefix E) common_prefixes gemini_suggestion in
        if 300 <? length gemini_suggestion then mret None
        else mret (Some gemini_suggestion)
    | _ => mret None
    end
  else mret None.

Definition generate_gemini_safer_alternative (E : Env)
    (clause_text clause_label risk_level rule_summary ml_suggestion : pystr)
    : IO (option pystr) :=
  try_except
    (let payload :=
       chat_payload clause_text clause_label risk_level rule_summary
         ml_suggestion in
     response ← external (ChatCompletion payload) (requests_post E payload);
     read_response E response)
    (mret None).

(** ** [analyze_single_clause] *)

Module Analysis.
(** The dict that [analyze_single_clause] returns. *)
Record t := {
  text : pystr;
  label : pystr;
  risk_level : pystr;
  confidence : Q;
  rule_summary : pystr;
  safer_alternative : pystr;
  lime_explanation : list (pystr * Q)      (* word, weight *)
}.
End Analysis.

(** [any('ऀ' <= char <= 'ॿ' for char in clause)] *)
Definition is_hindi (clause : pystr) : bool :=
  existsb (fun char => (2304 <=? char) && (char <=? 2431))%N clause.

(** [for k in keywords: if k in lower_text: final_risk = level; break] *)
Fixpoint scan_keywords (level : pystr) (keywords : list pystr)
    (lower_text final_risk : pystr) : pystr :=
  match keywords with
  | [] => final_risk
  | k :: keywords' =>
      if str_contains k lower_text then level
      else scan_keywords level keywords' lower_text final_risk
  end.

(** The block under [# Risk Logic]: the value of [final_risk] after it. *)
Definition risk_logic (risk_rules : gmap string (list pystr))
    (lower_text label : pystr) : pystr :=
  let final_risk := py "Low" in
  let final_risk :=
    match risk_rules !! "High" with
    | Some keywords => scan_keywords (py "High") keywords lower_text final_risk
    | None => final_risk
    end in
  let final_risk :=
    if negb (str_eqb final_risk (py "High")) then
      match risk_rules !! "Medium" with
      | Some keywords => scan_keywords (py "Medium") keywords lower_text final_risk
      | None => final_risk
      end
    else final_risk in
  let final_risk :=
    if negb (str_eqb final_risk (py "High"))
       && existsb (str_eqb label)
            [ py "Indemnity"; py "Liability"; py "Termination" ]
    then py "High"
    else final_risk in
  final_risk.

(** The pre-approved safe clauses. *)
Definition SAFE_LIABILITY : pystr :=
  py "The Provider's total liability under this Agreement shall not exceed the total fees paid by the Client during the preceding 12 months.".
Definition SAFE_TERMINATION : pystr :=
  py "Either party may terminate this Agreement for convenience upon providing thirty (30) days' prior written notice to the other party.".
Definition SAFE_INDEMNITY : pystr :=
  py "Indemnification shall be limited to third-party claims arising directly from gross negligence or willful misconduct.".
Definition SAFE_FORCE_MAJEURE : pystr :=
  py "Neither party shall be liable for any failure or delay in performance under this Agreement due to circumstances beyond its reasonable control, including but not limited to acts of God, natural disasters, war, terrorism, labor disputes, or government actions. The affected party shall notify the other party promptly and use reasonable efforts to resume performance.".
Definition SAFE_BREACH_PENALTIES : pystr :=
  py "In the event of a material breach, the non-breaching party may terminate this Agreement upon thirty (30) days' written notice, provided the breaching party fails to cure such breach within such notice period. Remedies shall be limited to termination and recovery of actual damages directly caused by the breach.".
Definition SAFE_NON_COMPETE : pystr :=
  py "During the term of this Agreement and for a period of twelve (12) months thereafter, the Employee agrees not to engage in any business activity that directly competes with the Employer's business, provided such restriction is limited to the geographic area where the Employer operates and is necessary to protect the Employer's legitimate business interests.".
Definition SAFE_CONFIDENTIALITY : pystr :=
  py "Each party agrees to maintain the confidentiality of all proprietary and confidential information disclosed by the other party, using the same degree of care as it uses to protect its own confidential information, but in no event less than reasonable care. This obligation shall survive termination of this Agreement for a period of three (3) years.".
Definition SAFE_GENERAL : pystr :=
  py "The parties agree to resolve any disputes through mutual consultation before seeking other legal remedies.".

(** The block under [# 1. Generate Summary]. *)
Definition generate_summary (E : Env) (is_hindi : bool)
    (text lower_text : pystr) : IO pystr :=
  if is_hindi then
    mret (py "This Hindi clause (translated) outlines responsibilities. Please review the English translation carefully.")
  else if has "liability" lower_text || has "indemnification" lower_text then
    mret (py "This clause outlines who is financially responsible if something goes wrong (liability) and who must pay legal costs (indemnity).")
  else if has "termination" lower_text then
    mret (py "This clause defines when and how the agreement can be ended.")
  else if has "force majeure" lower_text
          || has "force_majeure" (lower E lower_text) then
    mret (py "This clause addresses circumstances beyond either party's control that may prevent performance of the agreement.")
  else if has "breach" lower_text
          && (has "penalty" lower_text || has "penalties" lower_text
              || has "damages" lower_text) then
    mret (py "This clause defines penalties and remedies for breach of contract.")
  else generate_t5_summary E text.

(** [label.lower() if label else ""] *)
Definition label_lower (E : Env) (label : pystr) : pystr :=
  if truthy label then lower E label else [].

(** Step 1 of the hybrid approach: the template [ml_suggestion] chosen when
    the risk is high, by the label first and by the text second. *)
Definition ml_template (E : Env) (label lower_text : pystr) : pystr :=
  let label_lower := label_lower E label in
  if has "force" label_lower && has "majeure" label_lower then
    SAFE_FORCE_MAJEURE
  else if has "breach" label_lower
          && (has "penalty" label_lower || has "penalties" label_lower) then
    SAFE_BREACH_PENALTIES
  else if has "liability" label_lower then SAFE_LIABILITY
  else if has "termination" label_lower then SAFE_TERMINATION
  else if has "indemnity" label_lower || has "indemnification" label_lower then
    SAFE_INDEMNITY
  else if has "non-compete" label_lower || has "noncompete" label_lower
          || has "non_compete" label_lower then
    SAFE_NON_COMPETE
  else if has "confidentiality" label_lower || has "nda" label_lower
          || has "non-disclosure" label_lower then
    SAFE_CONFIDENTIALITY
  else if has "force majeure" lower_text || has "force_majeure" lower_text then
    SAFE_FORCE_MAJEURE
  else if has "breach" lower_text
          && (has "penalty" lower_text || has "penalties" lower_text)
          || has "liable" lower_text && has "damages" lower_text
             && has "injunctive" lower_text then
    SAFE_BREACH_PENALTIES
  else if has "liability" lower_text
          || has "liable" lower_text && has "damages" lower_text then
    SAFE_LIABILITY
  else if has "termination" lower_text then SAFE_TERMINATION
  else if has "indemnity" lower_text || has "indemnification" lower_text then
    SAFE_INDEMNITY
  else if has "non-compete" lower_text || has "noncompete" lower_text
          || has "non_compete" lower_text then
    SAFE_NON_COMPETE
  else if has "confidentiality" lower_text || has "nda" lower_text
          || has "non-disclosure" lower_text then
    SAFE_CONFIDENTIALITY
  else SAFE_GENERAL.

Definition common_clause_types : list pystr :=
  [ py "force majeure"; py "liability"; py "termination"; py "indemnity";
    py "breach"; py "penalty" ].

(** [any(common in label_lower_check for common in common_clause_types)] *)
Definition is_common_type (E : Env) (label : pystr) : bool :=
  let label_lower_check := label_lower E label in
  existsb (fun common => str_contains common label_lower_check)
          common_clause_types.

(** The block under [# 2. HYBRID APPROACH]: the value of
    [safer_alternative] after it. *)
Definition hybrid_suggestion (E : Env)
    (text label final_risk rule_summary lower_text : pystr) : IO pystr :=
  let safer_alternative := [] in
  if str_eqb final_risk (py "High") || str_eqb final_risk (py "Critical") then
    let ml_suggestion := ml_template E label lower_text in
    if negb (is_common_type E label) && str_eqb ml_suggestion SAFE_GENERAL then
      gemini_suggestion ←
        generate_gemini_safer_alternative E text label final_risk
          rule_summary ml_suggestion;
      match gemini_suggestion with
      | Some gemini_suggestion =>
          if truthy gemini_suggestion
             && (20 <? length gemini_suggestion)
             && (length gemini_suggestion <=? 250)
          then mret gemini_suggestion
          else mret ml_suggestion
      | None => mret ml_suggestion
      end
    else mret ml_suggestion
  else mret safer_alternative.

(** The block under [# LIME Explanation]. *)
Definition lime (E : Env) (text : pystr) (pred_id : N)
    : IO (list (pystr * Q)) :=
  try_except
    (lime_list ← external (Explain text pred_id) (explain_instance E text pred_id);
     mret (map (fun '(word, weight) => (word, round weight 3)) lime_list))
    (mret []).

Definition analyze_single_clause (E : Env) (clause : pystr) : IO Analysis.t :=
  let is_hindi := is_hindi clause in
  text ← (if is_hindi then translate_to_english E clause else mret clause);
  '(pred_id, confidence) ← external (Classify text) (bert E text);
  let label := default (py "Unknown") (id2label E !! pred_id) in
  let lower_text := lower E text in
  let final_risk := risk_logic (risk_rules E) lower_text label in
  rule_summary ← generate_summary E is_hindi text lower_text;
  safer_alternative ←
    hybrid_suggestion E text label final_risk rule_summary lower_text;
  lime_explanation ← lime E text pred_id;
  mret {| Analysis.text := clause;
          Analysis.label := label;
          Analysis.risk_level := final_risk;
          Analysis.confidence := round (confidence * 100)%Q 2;
          Analysis.rule_summary := rule_summary;
          Analysis.safer_alternative := safer_alternative;
          Analysis.lime_explanation := lime_explanation |}.

(** ** Routes *)

(** What a route hands to [jsonify]. *)
Inductive Body : Type :=
| Error (error : pystr)
| AnalysisResults (analysis_results : list Analysis.t)
| Summary (summary : pystr).

(** The segmentation of [analyze_document]: the value of
    [processed_clauses] when the loop starts. *)
Definition processed_clauses (raw_text : pystr) : list pystr :=
  let clean_text :=
    str_replace (py "[End of Document]") []
      (str_replace (py "[Start of Document]") [] raw_text) in
  let clauses :=
    map strip (List.filter (fun c => truthy (strip c)) (str_split 10 clean_text)) in
  let processed_clauses := List.filter (fun c => 20 <? length c) clauses in
  match processed_clauses with
  | [] => [raw_text]
  | _ :: _ => processed_clauses
  end.

(** A route answers with a body and a status; [text] is the value of
    [request.json.get('text')], [None] when the key is missing. *)
Definition analyze_document (E : Env) (text : option pystr) : IO (Body * Z) :=
  let raw_text := default [] text in
  if negb (truthy raw_text) then mret (Error (py "Empty text"), 400%Z)
  else
    results_list ← for_each (analyze_single_clause E) (processed_clauses raw_text);
    mret (AnalysisResults results_list, 200%Z).

Definition summarize (E : Env) (text : option pystr) : IO (Body * Z) :=
  let text := default [] text in
  analysis ← analyze_single_clause E text;
  mret (Summary (Analysis.rule_summary analysis), 200%Z).

(** ** The route [upload_pdf] *)

(** An attempt that may fail with an exception [e], of which the route
    keeps the message [str(e)]. *)
Inductive attempt (A : Type) : Type :=
| Done (a : A)
| Failed (message : pystr).
Arguments Done {A} a.
Arguments Failed {A} message.

Inductive PdfBody : Type :=
| PdfError (error : pystr)
| ExtractedText (extracted_text : pystr).

(** [for page in doc: text += page.get_text()]; a page is the outcome of
    its [get_text()]. *)
Fixpoint read_pages (doc : list (attempt pystr)) (text : pystr)
    : attempt pystr :=
  match doc with
  | [] => Done text
  | page :: doc' =>
      match page with
      | Done page_text => read_pages doc' (text ++ page_text)
      | Failed message => Failed message
      end
  end.

(** [fitz_open stream] stands for [fitz.open(stream=..., filetype="pdf")];
    [file] is the content of [request.files['file']], [None] when the
    request has no such file. *)
Definition upload_pdf
    (fitz_open : list Byte.byte -> attempt (list (attempt pystr)))
    (file : option (list Byte.byte)) : PdfBody * Z :=
  match file with
  | None => (PdfError (py "No file uploaded"), 400%Z)
  | Some stream =>
      match fitz_open stream with
      | Done doc =>
          match read_pages doc [] with
          | Done text => (ExtractedText (take 5000 text), 200%Z)
          | Failed message => (PdfError message, 500%Z)
          end
      | Failed message => (PdfError message, 500%Z)
      end
  end.

(** ** The route [search_judgment] *)

(** A value of the metadata read from [judgments_meta.json]. *)
Inductive jvalue : Type :=
| JString (s : pystr)
| JNumber (q : Q)
| JNull.

(** The resources of the judgment search: the embedding model (tokenizer
    and model, [None] when either is not loaded), the FAISS index with its
    [search], which gives row 0 of the ids paired with row 0 of the
    distances, and the metadata. *)
Record Judgments := {
  judge_model : option (pystr -> outcome (list Q));
  faiss_index : option (list Q -> Z -> outcome (list (Z * Q)));
  faiss_meta : list (gmap string jvalue)
}.

Definition get_judgment_embedding (J : Judgments) (text : pystr)
    : outcome (option (list Q)) :=
  match judge_model J with
  | None => Returned None
  | Some embed =>
      match embed text with
      | Returned vector => Returned (Some vector)
      | Raised => Raised
      end
  end.

(** [l[i]] for a Python list: a negative index counts from the end, and an
    index out of range raises. *)
Definition list_getitem {A : Type} (l : list A) (i : Z) : outcome A :=
  let n := Z.of_nat (length l) in
  let j := if (i <? 0)%Z then (i + n)%Z else i in
  if (0 <=? j)%Z && (j <? n)%Z then
    match l !! Z.to_nat j with
    | Some x => Returned x
    | None => Raised
    end
  else Raised.

(** [d[key]] for a dict: a missing key raises. *)
Definition dict_getitem (d : gmap string jvalue) (key : string)
    : outcome jvalue :=
  match d !! key with
  | Some v => Returned v
  | None => Raised
  end.

(** [1 / (1 + distance)].  Numbers are rationals: at the distance -1,
    where numpy gives [inf], this is 0. *)
Definition similarity (distance : Q) : Q := (1 / (1 + distance))%Q.

Record JudgmentResult := {
  judgment_id : jvalue;
  case_name : jvalue;
  year : jvalue;
  text_snippet : jvalue;
  similarity_score : Q
}.

(** The dict appended for one hit. *)
Definition judgment_result (meta : gmap string jvalue) (distance : Q)
    : outcome JudgmentResult :=
  match dict_getitem meta "judgment_id", dict_getitem meta "case_name",
        dict_getitem meta "year", dict_getitem meta "text" with
  | Returned i, Returned n, Returned y, Returned t =>
      Returned {| judgment_id := i; case_name := n; year := y;
                  text_snippet := t;
                  similarity_score := similarity distance |}
  | _, _, _, _ => Raised
  end.

(** [for i, idx in enumerate(I[0]): if idx != -1: ... results.append(...)] *)
Fixpoint collect_results (meta_list : list (gmap string jvalue))
    (hits : list (Z * Q)) (results : list JudgmentResult)
    : outcome (list JudgmentResult) :=
  match hits with
  | [] => Returned results
  | (idx, distance) :: hits' =>
      if (idx =? -1)%Z then collect_results meta_list hits' results
      else
        match list_getitem meta_list idx with
        | Returned meta =>
            match judgment_result meta distance with
            | Returned r => collect_results meta_list hits' (results ++ [r])
            | Raised => Raised
            end
        | Raised => Raised
        end
  end.

Inductive SearchBody : Type :=
| SearchError (error : pystr)
| Results (results : list JudgmentResult).

(** [clause_text] and [top_k] are the values of these keys of the request's
    JSON, [None] when missing. *)
Definition search_judgment (J : Judgments) (clause_text : option pystr)
    (top_k : option Z) : outcome (SearchBody * Z) :=
  match faiss_index J with
  | None => Returned (SearchError (py "FAISS Index not loaded"), 500%Z)
  | Some search =>
      let clause_text := default [] clause_text in
      let top_k := default 3%Z top_k in
      match get_judgment_embedding J clause_text with
      | Raised => Raised
      | Returned None =>
          Returned (SearchError (py "Embedding model failed"), 500%Z)
      | Returned (Some query_vector) =>
          match search query_vector top_k with
          | Raised => Raised
          | Returned hits =>
              match collect_results (faiss_meta J) hits [] with
              | Raised => Raised
              | Returned results => Returned (Results results, 200%Z)
              end
          end
      end
  end.




(** Example resources: two judgments. *)
Definition example_judgments : Judgments :=
  {| judge_model := Some (fun _ => Returned [(1 # 2)%Q; (1 # 3)%Q]);
     faiss_index :=
       Some (fun _ _ => Returned [(1%Z, 0%Q); (0%Z, (3 # 1)%Q); ((-1)%Z, (-1)%Q)]);
     faiss_meta :=
       [ list_to_map [ ("judgment_id", JString (py "J-1"));
                       ("case_name", JString (py "A v. B"));
                       ("year", JNumber (1999 # 1)%Q);
                       ("text", JString (py "first")) ];
         list_to_map [ ("judgment_id", JString (py "J-2"));
                       ("case_name", JString (py "C v. D"));
                       ("year", JNumber (2004 # 1)%Q);
                       ("text", JString (py "second")) ] ] |}.

(** ** Notions used to state the properties *)

(** The value [translate_to_english] returns. *)
Definition translation (E : Env) (text : pystr) : pystr :=
  if str_contains uttardayi text || str_contains harzana text
  then liable_sentence
  else match translator_translate E text with
       | Returned english => english
       | Raised => text
       end.

(** The value of the variable [text] of [analyze_single_clause]: what
    classification, risk logic, summary and suggestion work on. *)
Definition working_text (E : Env) (clause : pystr) : pystr :=
  if is_hindi clause then translation E clause else clause.

(** The calls of the first step of [analyze_single_clause]: the external
    translator is called for a Hindi clause without the two words. *)
Definition translate_calls (clause : pystr) : list call :=
  if is_hindi clause
  then if str_contains uttardayi clause || str_contains harzana clause
       then [] else [Translate clause]
  else [].

(** [id2label.get(pred_id, "Unknown")] *)
Definition label_of (E : Env) (pred_id : N) : pystr :=
  default (py "Unknown") (id2label E !! pred_id).

(** The eight constants [SAFE_...] of [analyze_single_clause]: seven for
    clause types and the generic one. *)
Definition catalog : list pystr :=
  [ SAFE_LIABILITY; SAFE_TERMINATION; SAFE_INDEMNITY; SAFE_FORCE_MAJEURE;
    SAFE_BREACH_PENALTIES; SAFE_NON_COMPETE; SAFE_CONFIDENTIALITY;
    SAFE_GENERAL ].

(** [str.lower] works character by character and leaves lower-case ASCII
    letters, spaces and punctuation as they are, so that it keeps the
    occurrences of a text made of these.  [lower_keeps E subs] says so of
    the texts [subs]. *)
Definition lower_keeps (E : Env) (subs : list pystr) : Prop :=
  forall sub s, In sub subs ->
    str_contains sub s = true -> str_contains sub (lower E s) = true.

Definition is_chat_completion (c : call) : bool :=
  match c with ChatCompletion _ => true | _ => false end.

Definition is_translate (c : call) : bool :=
  match c with Translate _ => true | _ => false end.

(** Two analyses that differ at most in the [text] they echo. *)
Definition same_findings (r1 r2 : Analysis.t) : Prop :=
  Analysis.label r1 = Analysis.label r2
  /\ Analysis.risk_level r1 = Analysis.risk_level r2
  /\ Analysis.confidence r1 = Analysis.confidence r2
  /\ Analysis.rule_summary r1 = Analysis.rule_summary r2
  /\ Analysis.safer_alternative r1 = Analysis.safer_alternative r2
  /\ Analysis.lime_explanation r1 = Analysis.lime_explanation r2.

(** ** Environments for examples

    [str.lower] on ASCII text, and an environment built from the outcomes
    of the external calls. *)

Definition ascii_lower (s : pystr) : pystr :=
  map (fun c => if (65 <=? c) && (c <=? 90) then c + 32 else c)%N s.

Definition example_env (labels : list (N * pystr))
    (rules : list (string * list pystr))
    (translated : outcome pystr) (classified : outcome (N * Q))
    (answer : outcome Response) : Env :=
  {| lower := ascii_lower;
     id2label := list_to_map labels;
     risk_rules := list_to_map rules;
     translator_translate := fun _ => translated;
     bert := fun _ => classified;
     t5 := fun _ => Raised;
     requests_post := fun _ => answer;
     explain_instance := fun _ _ => Raised |}.

(** An answer of the chat completion API with one choice. *)
Definition answer_with (content : pystr) : outcome Response :=
  Returned {| status_code := 200;
              json := Returned {| choices := Some [Returned content] |} |}.

Definition example_labels : list (N * pystr) :=
  [ (0%N, py "Liability"); (1%N, py "Payment Terms") ].

Definition example_rules : list (string * list pystr) :=
  [ ("High", [py "unlimited liability"; py "indemnify"]);
    ("Medium", [py "penalty"; py "terminate"]) ].

(** An environment whose summarizer and explainer answer. *)
Definition example_env_answering (classified : outcome (N * Q))
    (summarized : outcome pystr)
    (explained : outcome (list (pystr * Q))) : Env :=
  {| lower := ascii_lower;
     id2label := list_to_map example_labels;
     risk_rules := list_to_map example_rules;
     translator_translate := fun _ => Raised;
     bert := fun _ => classified;
     t5 := fun _ => summarized;
     requests_post := fun _ => Raised;
     explain_instance := fun _ _ => explained |}.

(** [label in ["Indemnity", "Liability", "Termination"]] *)
Definition high_stakes_label (label : pystr) : bool :=
  existsb (str_eqb label) [ py "Indemnity"; py "Liability"; py "Termination" ].

(** Whether some keyword configured under [level] occurs in the text;
    [false] when [risk_rules] has no such key. *)
Definition keyword_hit (rules : gmap string (list pystr)) (level : string)
    (lower_text : pystr) : bool :=
  match rules !! level with
  | Some keywords => existsb (fun k => str_contains k lower_text) keywords
  | None => false
  end.

(** The topic words that spare the summarizer. *)
Definition summary_shortcut (E : Env) (lower_text : pystr) : bool :=
  has "liability" lower_text || has "indemnification" lower_text
  || has "termination" lower_text
  || has "force majeure" lower_text || has "force_majeure" (lower E lower_text)
  || has "breach" lower_text
     && (has "penalty" lower_text || has "penalties" lower_text
         || has "damages" lower_text).

(** The five templates that a label of a common type can select. *)
Definition typed_templates : list pystr :=
  [ SAFE_FORCE_MAJEURE; SAFE_BREACH_PENALTIES; SAFE_LIABILITY;
    SAFE_TERMINATION; SAFE_INDEMNITY ].

(* ================================================================== *)
(** * Part II. Properties                                              *)
(* ================================================================== *)

(** ** Strings *)

Section Strings.
Implicit Types (s t sub old new : pystr) (c sep : N) (drop : N -> bool).

Lemma str_eqb_eq s t : str_eqb s t = true <-> s = t.
Proof.
  revert t; induction s as [|x s IH]; intros [|y t]; simpl; try easy.
  rewrite andb_true_iff, N.eqb_eq, IH. split.
  - intros [-> ->]; reflexivity.
  - intros [= -> ->]; auto.
Qed.


Lemma str_startswith_spec s t :
  str_startswith s t = true <-> exists rest, s = t ++ rest.
Proof.
  revert s; induction t as [|p t IH]; intros s; simpl.
  - split; [intros _; exists s; reflexivity | reflexivity].
  - destruct s as [|c s].
    + split; [discriminate | intros [rest [=]]].
    + rewrite andb_true_iff, N.eqb_eq, IH. split.
      * intros [-> [rest ->]]. exists rest; reflexivity.
      * intros [rest [= -> ->]]; eauto.
Qed.

(** [sub in s] holds exactly when [s] is [pre ++ sub ++ post]. *)
Lemma str_contains_spec sub s :
  str_contains sub s = true <-> exists pre post, s = pre ++ sub ++ post.
Proof.
  induction s as [|c s IH]; simpl.
  - rewrite orb_false_r, str_startswith_spec. split.
    + intros [rest H]. exists [], rest. exact H.
    + intros [pre [post H]]. symmetry in H.
      apply app_eq_nil in H as [-> H]. exists post. symmetry; exact H.
  - rewrite orb_true_iff, str_startswith_spec, IH. split.
    + intros [[rest H] | [pre [post H]]].
      * exists [], rest. exact H.
      * exists (c :: pre), post. simpl. rewrite H; reflexivity.
    + intros [[|p pre] [post H]].
      * left. exists post. exact H.
      * right. injection H as -> ->. eauto.
Qed.

Lemma str_contains_false_startswith sub s :
  str_contains sub s = false -> str_startswith s sub = false.
Proof.
  destruct s; simpl; intros H; apply orb_false_iff in H as [H _]; exact H.
Qed.

Lemma str_contains_false_tail sub c s :
  str_contains sub (c :: s) = false -> str_contains sub s = false.
Proof. simpl. intros H; apply orb_false_iff in H as [_ H]; exact H. Qed.

(** A string in which [old] does not occur is left as it is. *)
Lemma replace_from_absent old new s :
  str_contains old s = false -> replace_from old new 0 s = s.
Proof.
  induction s as [|c s IH]; intros H; [reflexivity|].
  cbn [replace_from].
  rewrite (str_contains_false_startswith _ _ H).
  rewrite IH; [reflexivity|]. eapply str_contains_false_tail; eauto.
Qed.

Lemma str_replace_absent old new s :
  str_contains old s = false -> str_replace old new s = s.
Proof.
  destruct old as [|p old]; intros H.
  - destruct s; discriminate H.
  - apply replace_from_absent; exact H.
Qed.

(** At an occurrence of [old], [replace] puts [new] and goes on after the
    occurrence; elsewhere it keeps the character. *)
Lemma replace_from_skip old new k s :
  replace_from old new k s = replace_from old new 0 (drop k s).
Proof.
  revert k; induction s as [|c s IH]; intros [|k]; try reflexivity.
  cbn [replace_from]. rewrite IH. reflexivity.
Qed.

Lemma str_replace_here old new rest :
  old <> [] ->
  str_replace old new (old ++ rest) = new ++ str_replace old new rest.
Proof.
  destruct old as [|p old]; [congruence|]. intros _.
  unfold str_replace. cbn [app replace_from].
  assert (Hs : str_startswith (p :: old ++ rest) (p :: old) = true)
    by (apply str_startswith_spec; exists rest; reflexivity).
  rewrite Hs. f_equal. rewrite replace_from_skip.
  replace (length (p :: old) - 1) with (length old)
    by (cbn [length]; lia).
  rewrite drop_app_length. reflexivity.
Qed.

Lemma str_replace_next old new c s :
  old <> [] -> str_startswith (c :: s) old = false ->
  str_replace old new (c :: s) = c :: str_replace old new s.
Proof.
  destruct old as [|p old]; [congruence|]. intros _ H.
  unfold str_replace. cbn [replace_from]. rewrite H. reflexivity.
Qed.

(** The pieces of [split] hold no separator, and a string without
    separator is its own only piece. *)
Lemma str_split_nonempty sep s : str_split sep s <> [].
Proof.
  induction s as [|c s IH]; simpl; [discriminate|].
  destruct (c =? sep)%N; [discriminate|].
  destruct (str_split sep s); discriminate.
Qed.

Lemma str_split_pieces sep s w : In w (str_split sep s) -> ~ In sep w.
Proof.
  revert w; induction s as [|c s IH]; intros w; simpl.
  - intros [<- | []]. intros [].
  - destruct (c =? sep)%N eqn:Hc.
    + intros [<- | H]; [intros [] | auto].
    + destruct (str_split sep s) as [|w0 ws] eqn:Hs.
      * intros [<- | []]. intros [-> | []].
        rewrite N.eqb_refl in Hc; discriminate.
      * intros [<- | H].
        -- intros [-> | H0]; [rewrite N.eqb_refl in Hc; discriminate|].
           apply (IH w0); [left; reflexivity | exact H0].
        -- apply IH. right; exact H.
Qed.

Lemma str_split_single sep s : ~ In sep s -> str_split sep s = [s].
Proof.
  induction s as [|c s IH]; intros H; [reflexivity|]. simpl.
  destruct (c =? sep)%N eqn:Hc.
  - apply N.eqb_eq in Hc. exfalso; apply H; left; exact Hc.
  - rewrite IH; [reflexivity|]. intros H0; apply H; right; exact H0.
Qed.

(** [strip] keeps a contiguous part, and stripping twice is stripping
    once. *)
Lemma str_lstrip_incl drop s c : In c (str_lstrip drop s) -> In c s.
Proof.
  induction s as [|x s IH]; simpl; [easy|].
  destruct (drop x); [right; auto | easy].
Qed.

Lemma str_rstrip_incl drop s c : In c (str_rstrip drop s) -> In c s.
Proof.
  revert c; induction s as [|x s IH]; intros c; simpl; [easy|].
  destruct (str_rstrip drop s) as [|y t].
  - destruct (drop x); [intros [] | intros [<- | []]; left; reflexivity].
  - intros [<- | H]; [left; reflexivity | right; apply IH; exact H].
Qed.

Lemma str_strip_incl drop s c : In c (str_strip drop s) -> In c s.
Proof.
  intros H. apply str_lstrip_incl with drop.
  apply str_rstrip_incl with drop. exact H.
Qed.

Lemma str_lstrip_head drop s :
  str_lstrip drop s = [] \/
  exists c t, str_lstrip drop s = c :: t /\ drop c = false.
Proof.
  induction s as [|x s IH]; simpl; [left; reflexivity|].
  destruct (drop x) eqn:Hx; [exact IH | right; eauto].
Qed.

Lemma str_rstrip_keep drop c s :
  drop c = false -> str_rstrip drop (c :: s) = c :: str_rstrip drop s.
Proof.
  intros H. simpl. destruct (str_rstrip drop s); [rewrite H|]; reflexivity.
Qed.

Lemma str_rstrip_idem drop s :
  str_rstrip drop (str_rstrip drop s) = str_rstrip drop s.
Proof.
  induction s as [|c s IH]; [reflexivity|]. simpl.
  destruct (str_rstrip drop s) as [|y t] eqn:Hs.
  - destruct (drop c) eqn:Hc; [reflexivity|]. simpl. rewrite Hc. reflexivity.
  - change (str_rstrip drop (c :: y :: t)) with
      (match str_rstrip drop (y :: t) with
       | [] => if drop c then [] else [c]
       | u => c :: u
       end).
    rewrite IH. reflexivity.
Qed.

Lemma str_strip_idem drop s :
  str_strip drop (str_strip drop s) = str_strip drop s.
Proof.
  unfold str_strip.
  destruct (str_lstrip_head drop s) as [-> | (c & t & -> & Hc)];
    [reflexivity|].
  rewrite (str_rstrip_keep _ _ _ Hc). simpl. rewrite Hc.
  rewrite <- (str_rstrip_keep _ _ _ Hc). apply str_rstrip_idem.
Qed.

End Strings.

(** The string functions on small inputs, as Python evaluates them. *)

Example contains_is_case_sensitive :
  has "liability" (py "Unlimited Liability") = false
  /\ has "liability" (py "unlimited liability") = true
  /\ has "" (py "") = true.
Proof. repeat split. Qed.

Example replace_goes_left_to_right :
  str_replace (py "ab") [] (py "aabb") = py "ab"
  /\ str_replace (py "aa") (py "b") (py "aaa") = py "ba"
  /\ str_replace [] (py "-") (py "ab") = py "-a-b-".
Proof. repeat split. Qed.

Example split_keeps_empty_pieces :
  str_split 10 (lines [py "a"; []; py "b"; []]) = [py "a"; []; py "b"; []]
  /\ str_split 10 [] = [[]].
Proof. repeat split. Qed.

Example strip_both_ends :
  strip (9 :: py "  a b " ++ [13; 10])%N = py "a b"
  /\ strip (py "   ") = []
  /\ strip_chars dquote (dquote ++ py "quoted" ++ dquote) = py "quoted".
Proof. repeat split. Qed.

Example round_ties_to_even :
  round (1 # 8) 2 = (12 # 100)%Q
  /\ round (3 # 8) 2 = (38 # 100)%Q
  /\ round ((7 # 8) * 100) 2 = (8750 # 100)%Q.
Proof. repeat split. Qed.

(** ** Segmentation *)

Lemma strip_idem s : strip (strip s) = strip s.
Proof. apply str_strip_idem. Qed.

(** A stripped clause of more than 20 characters, without newline and
    without boundary marker, is segmented into itself. *)
Lemma processed_clauses_fixed c :
  ~ In 10%N c -> strip c = c -> 20 < length c ->
  has "[Start of Document]" c = false ->
  has "[End of Document]" c = false ->
  processed_clauses c = [c].
Proof.
  intros Hnl Hstrip Hlen Hstart Hend. unfold processed_clauses.
  rewrite (str_replace_absent _ _ _ Hstart), (str_replace_absent _ _ _ Hend).
  rewrite (str_split_single _ _ Hnl). cbn [List.filter].
  rewrite Hstrip.
  assert (Ht : truthy c = true) by (destruct c; [simpl in Hlen; lia | reflexivity]).
  rewrite Ht. cbn [map List.filter]. rewrite Hstrip.
  assert (Hl : (20 <? length c) = true) by (apply Nat.ltb_lt; exact Hlen).
  rewrite Hl. reflexivity.
Qed.

(** What the candidates of the segmentation look like. *)
Lemma processed_candidates raw_text c :
  In c (List.filter (fun c => 20 <? length c)
          (map strip (List.filter (fun c => truthy (strip c))
             (str_split 10
                (str_replace (py "[End of Document]") []
                   (str_replace (py "[Start of Document]") [] raw_text)))))) ->
  ~ In 10%N c /\ strip c = c /\ 20 < length c.
Proof.
  intros H. apply filter_In in H as [H Hlen].
  apply in_map_iff in H as (w & <- & Hw).
  apply filter_In in Hw as [Hw _].
  split; [|split].
  - intros H10. apply (str_split_pieces _ _ _ Hw).
    apply str_strip_incl with Py_UNICODE_ISSPACE. exact H10.
  - apply strip_idem.
  - apply Nat.ltb_lt. exact Hlen.
Qed.

(** C9, as amended: a clause produced by the segmentation in which neither
    boundary marker occurs is segmented, as a document of its own, into
    exactly itself. *)
Theorem resegmentation_without_markers (raw_text c : pystr) :
  In c (processed_clauses raw_text) ->
  has "[Start of Document]" c = false ->
  has "[End of Document]" c = false ->
  processed_clauses c = [c].
Proof.
  intros Hin Hstart Hend.
  unfold processed_clauses in Hin.
  match type of Hin with
  | In _ (match ?l with _ => _ end) => destruct l as [|c0 l0] eqn:Hl
  end.
  - destruct Hin as [<- | []]. unfold processed_clauses. rewrite Hl.
    reflexivity.
  - rewrite <- Hl in Hin. apply processed_candidates in Hin as (Hnl & Hs & Hlen).
    apply processed_clauses_fixed; assumption.
Qed.

Lemma resegmentation_without_markers_witness :
  let raw_text :=
    lines [ py "[Start of Document]";
            py "  The Supplier shall deliver the goods within thirty days.  ";
            py "short line";
            py "[End of Document]" ] in
  let c := py "The Supplier shall deliver the goods within thirty days." in
  processed_clauses raw_text = [c] /\ processed_clauses c = [c].
Proof.
  split; [vm_compute; reflexivity|].
  apply (resegmentation_without_markers
           (lines [ py "[Start of Document]";
                    py "  The Supplier shall deliver the goods within thirty days.  ";
                    py "short line";
                    py "[End of Document]" ])).
  - vm_compute. left. reflexivity.
  - vm_compute. reflexivity.
  - vm_compute. reflexivity.
Defined.

(** C9, as stated, fails: removing the end marker can put a start marker
    together, which the second segmentation then removes. *)
Lemma resegmentation_removes_marker :
  let raw_text :=
    py "[Start of [End of Document]Document] The Supplier shall deliver the goods." in
  let c := py "[Start of Document] The Supplier shall deliver the goods." in
  processed_clauses raw_text = [c]
  /\ processed_clauses c = [py "The Supplier shall deliver the goods."]
  /\ processed_clauses c <> [c].
Proof.
  split; [vm_compute; reflexivity|].
  split; [vm_compute; reflexivity|].
  vm_compute. discriminate.
Qed.

Arguments py : simpl never.

(** ** Risk logic *)

Section RiskLogic.
Implicit Types (lower_text label level final_risk : pystr).
Implicit Types (keywords : list pystr).

(** The loop with [break] finds whether some keyword occurs. *)
Lemma scan_keywords_existsb level keywords lower_text final_risk :
  scan_keywords level keywords lower_text final_risk =
  if existsb (fun k => str_contains k lower_text) keywords
  then level else final_risk.
Proof.
  induction keywords as [|k keywords IH]; simpl; [reflexivity|].
  destruct (str_contains k lower_text); [reflexivity | exact IH].
Qed.

Lemma existsb_keyword keywords lower_text k :
  In k keywords -> str_contains k lower_text = true ->
  existsb (fun k => str_contains k lower_text) keywords = true.
Proof. intros Hin Hk. apply existsb_exists. exists k. split; assumption. Qed.

Lemma existsb_no_keyword keywords lower_text :
  (forall k, In k keywords -> str_contains k lower_text = false) ->
  existsb (fun k => str_contains k lower_text) keywords = false.
Proof.
  intros H. apply not_true_is_false. intros Hex.
  apply existsb_exists in Hex as (k & Hin & Hk).
  rewrite (H k Hin) in Hk. discriminate.
Qed.

Lemma low_is_not_high : str_eqb (py "Low") (py "High") = false.
Proof. reflexivity. Qed.

Lemma medium_is_not_high : str_eqb (py "Medium") (py "High") = false.
Proof. reflexivity. Qed.

Lemma high_is_high : str_eqb (py "High") (py "High") = true.
Proof. reflexivity. Qed.

(** A match of a high-risk keyword decides the risk. *)
Lemma risk_logic_high (rules : gmap string (list pystr))
    keywords k lower_text label :
  rules !! "High" = Some keywords -> In k keywords ->
  str_contains k lower_text = true ->
  risk_logic rules lower_text label = py "High".
Proof.
  intros Hrules Hin Hk. unfold risk_logic. rewrite Hrules.
  rewrite scan_keywords_existsb, (existsb_keyword _ _ _ Hin Hk).
  rewrite high_is_high. reflexivity.
Qed.

(** Without a high-risk match and with a medium-risk match, the label
    check that follows still decides. *)
Lemma risk_logic_medium (rules : gmap string (list pystr))
    keywords k lower_text label :
  (forall highs h, rules !! "High" = Some highs -> In h highs ->
                   str_contains h lower_text = false) ->
  rules !! "Medium" = Some keywords -> In k keywords ->
  str_contains k lower_text = true ->
  risk_logic rules lower_text label =
  if existsb (str_eqb label)
       [ py "Indemnity"; py "Liability"; py "Termination" ]
  then py "High" else py "Medium".
Proof.
  intros Hhigh Hrules Hin Hk. unfold risk_logic.
  assert (H1 : match rules !! "High" with
               | Some keywords =>
                   scan_keywords (py "High") keywords lower_text (py "Low")
               | None => py "Low"
               end = py "Low").
  { destruct (rules !! "High") as [highs|] eqn:Hh; [|reflexivity].
    rewrite scan_keywords_existsb, existsb_no_keyword; [reflexivity|].
    intros h. apply Hhigh. reflexivity. }
  rewrite H1, low_is_not_high. cbn [negb]. rewrite Hrules.
  rewrite scan_keywords_existsb, (existsb_keyword _ _ _ Hin Hk).
  rewrite medium_is_not_high. cbn [negb andb]. reflexivity.
Qed.

(** The risk is one of three strings; ["Critical"] is not among them. *)
Lemma risk_logic_values (rules : gmap string (list pystr)) lower_text label :
  risk_logic rules lower_text label = py "Low"
  \/ risk_logic rules lower_text label = py "Medium"
  \/ risk_logic rules lower_text label = py "High".
Proof.
  unfold risk_logic.
  destruct (rules !! "High") as [highs|];
    [rewrite scan_keywords_existsb;
     destruct (existsb _ highs);
     [rewrite high_is_high; cbn [negb andb]; auto|] |];
    rewrite low_is_not_high; cbn [negb];
    (destruct (rules !! "Medium") as [mediums|];
     [rewrite scan_keywords_existsb; destruct (existsb _ mediums);
      [rewrite medium_is_not_high | rewrite low_is_not_high]
     | rewrite low_is_not_high]);
    cbn [negb andb]; destruct (existsb (str_eqb label) _); auto.
Qed.

Lemma high_or_critical final_risk :
  final_risk = py "Low" \/ final_risk = py "Medium" \/ final_risk = py "High" ->
  str_eqb final_risk (py "High") || str_eqb final_risk (py "Critical")
  = str_eqb final_risk (py "High").
Proof. intros [-> | [-> | ->]]; reflexivity. Qed.

End RiskLogic.

(** ** The helpers never raise *)

Section Helpers.
Context (E : Env).
Implicit Types (text clause label lower_text final_risk : pystr).

Lemma translate_to_english_returns text :
  translate_to_english E text =
  (if str_contains uttardayi text || str_contains harzana text
   then [] else [Translate text],
   Returned (translation E text)).
Proof.
  unfold translate_to_english, translation.
  destruct (str_contains uttardayi text || str_contains harzana text);
    [reflexivity|].
  unfold external, try_except.
  destruct (translator_translate E text); reflexivity.
Qed.

Lemma generate_t5_summary_returns text :
  generate_t5_summary E text =
  ([Summarize (py "summarize: " ++ text)],
   Returned match t5 E (py "summarize: " ++ text) with
            | Returned summary => summary
            | Raised => py "Summary unavailable."
            end).
Proof.
  unfold generate_t5_summary, external, try_except.
  destruct (t5 E (py "summarize: " ++ text)); reflexivity.
Qed.

Lemma generate_summary_returns (hindi : bool) text lower_text :
  exists log rule_summary,
    generate_summary E hindi text lower_text = (log, Returned rule_summary)
    /\ (log = [] \/ log = [Summarize (py "summarize: " ++ text)])
    /\ (hindi = true -> log = [] /\ rule_summary =
          py "This Hindi clause (translated) outlines responsibilities. Please review the English translation carefully.").
Proof.
  unfold generate_summary.
  repeat match goal with
         | |- context [if ?b then _ else _] =>
             destruct b eqn:?;
             [eexists _, _; split; [reflexivity|]; split; auto; discriminate|]
         end.
  rewrite generate_t5_summary_returns.
  eexists _, _; split; [reflexivity|]; split; auto. discriminate.
Qed.

Lemma read_response_silent response :
  exists r, read_response E response = ([], r).
Proof.
  unfold read_response.
  destruct (status_code response =? 200)%Z; [|eexists; reflexivity].
  destruct (json response) as [data|]; [|eexists; reflexivity].
  unfold eval. cbn [mbind IO_bind].
  destruct (choices data) as [[|[content|] rest]|];
    try (eexists; reflexivity).
  cbn [mbind IO_bind].
  destruct (300 <? _); eexists; reflexivity.
Qed.

(** The chat completion API is called once, and whatever comes of it the
    function returns. *)
Lemma generate_gemini_returns clause_text clause_label risk_level
    rule_summary ml_suggestion :
  exists suggestion,
    generate_gemini_safer_alternative E clause_text clause_label risk_level
      rule_summary ml_suggestion =
    ([ChatCompletion (chat_payload clause_text clause_label risk_level
                        rule_summary ml_suggestion)],
     Returned suggestion).
Proof.
  unfold generate_gemini_safer_alternative.
  set (payload := chat_payload _ _ _ _ _). cbv zeta. unfold external.
  destruct (requests_post E payload) as [response|].
  - destruct (read_response_silent response) as [r Hr].
    cbn [mbind IO_bind]. rewrite Hr.
    destruct r as [suggestion|]; eexists; reflexivity.
  - eexists; reflexivity.
Qed.

Lemma lime_returns text pred_id :
  lime E text pred_id =
  ([Explain text pred_id],
   Returned match explain_instance E text pred_id with
            | Returned lime_list =>
                map (fun '(word, weight) => (word, round weight 3)) lime_list
            | Raised => []
            end).
Proof.
  unfold lime, external, try_except.
  destruct (explain_instance E text pred_id); reflexivity.
Qed.

End Helpers.

(** ** The suggestion and the analysis *)

Section Analysis.
Context (E : Env).
Implicit Types (text clause label lower_text final_risk rule_summary : pystr).

(** The three ways through the hybrid block: no suggestion, the
    template, or the template unless the chat completion API gave an
    answer of accepted length. *)
Lemma hybrid_suggestion_cases text label final_risk rule_summary lower_text :
  let ml_suggestion := ml_template E label lower_text in
  (str_eqb final_risk (py "High") || str_eqb final_risk (py "Critical") = false
   /\ hybrid_suggestion E text label final_risk rule_summary lower_text
      = ([], Returned []))
  \/ (str_eqb final_risk (py "High") || str_eqb final_risk (py "Critical") = true
      /\ negb (is_common_type E label) && str_eqb ml_suggestion SAFE_GENERAL = false
      /\ hybrid_suggestion E text label final_risk rule_summary lower_text
         = ([], Returned ml_suggestion))
  \/ (str_eqb final_risk (py "High") || str_eqb final_risk (py "Critical") = true
      /\ is_common_type E label = false
      /\ ml_suggestion = SAFE_GENERAL
      /\ exists suggestion,
           generate_gemini_safer_alternative E text label final_risk
             rule_summary SAFE_GENERAL
           = ([ChatCompletion (chat_payload text label final_risk rule_summary
                                 SAFE_GENERAL)],
              Returned suggestion)
           /\ hybrid_suggestion E text label final_risk rule_summary lower_text
              = ([ChatCompletion (chat_payload text label final_risk
                                    rule_summary SAFE_GENERAL)],
                 Returned match suggestion with
                          | Some gemini_suggestion =>
                              if truthy gemini_suggestion
                                 && (20 <? length gemini_suggestion)
                                 && (length gemini_suggestion <=? 250)
                              then gemini_suggestion
                              else SAFE_GENERAL
                          | None => SAFE_GENERAL
                          end)).
Proof.
  intros ml_suggestion. unfold hybrid_suggestion. fold ml_suggestion.
  destruct (str_eqb final_risk (py "High") || str_eqb final_risk (py "Critical"));
    [|left; split; reflexivity].
  right.
  destruct (is_common_type E label) eqn:Hcommon;
    [left; repeat split; reflexivity|].
  destruct (str_eqb ml_suggestion SAFE_GENERAL) eqn:Hgen;
    [|left; repeat split; reflexivity].
  right. apply str_eqb_eq in Hgen. rewrite Hgen.
  destruct (generate_gemini_returns E text label final_risk rule_summary
              SAFE_GENERAL) as [suggestion Hg].
  repeat split. exists suggestion. split; [exact Hg|].
  cbn [negb andb]. rewrite Hg. cbn [mbind IO_bind].
  destruct suggestion as [g|]; [|reflexivity].
  destruct (truthy g && (20 <? length g) && (length g <=? 250)); reflexivity.
Qed.

Lemma hybrid_suggestion_returns text label final_risk rule_summary lower_text :
  exists log safer_alternative,
    hybrid_suggestion E text label final_risk rule_summary lower_text
    = (log, Returned safer_alternative).
Proof.
  destruct (hybrid_suggestion_cases text label final_risk rule_summary
              lower_text) as [[_ H] | [(_ & _ & H) | (_ & _ & _ & s & _ & H)]];
    rewrite H; eauto.
Qed.

Lemma first_step_returns clause :
  (if is_hindi clause then translate_to_english E clause else mret clause)
  = (translate_calls clause, Returned (working_text E clause)).
Proof.
  unfold working_text, translate_calls.
  destruct (is_hindi clause); [|reflexivity].
  apply translate_to_english_returns.
Qed.

(** Once the classifier has answered, the analysis returns, with these
    fields and this log. *)
Lemma analyze_single_clause_returns clause pred_id confidence :
  bert E (working_text E clause) = Returned (pred_id, confidence) ->
  let text := working_text E clause in
  let label := label_of E pred_id in
  let lower_text := lower E text in
  let final_risk := risk_logic (risk_rules E) lower_text label in
  exists log_s rule_summary log_h safer_alternative,
    generate_summary E (is_hindi clause) text lower_text
    = (log_s, Returned rule_summary)
    /\ (log_s = [] \/ log_s = [Summarize (py "summarize: " ++ text)])
    /\ hybrid_suggestion E text label final_risk rule_summary lower_text
       = (log_h, Returned safer_alternative)
    /\ analyze_single_clause E clause
       = (translate_calls clause ++ [Classify text] ++ log_s ++ log_h
          ++ [Explain text pred_id],
          Returned
            {| Analysis.text := clause;
               Analysis.label := label;
               Analysis.risk_level := final_risk;
               Analysis.confidence := round (confidence * 100)%Q 2;
               Analysis.rule_summary := rule_summary;
               Analysis.safer_alternative := safer_alternative;
               Analysis.lime_explanation :=
                 match explain_instance E text pred_id with
                 | Returned lime_list =>
                     map (fun '(word, weight) => (word, round weight 3))
                         lime_list
                 | Raised => []
                 end |}).
Proof.
  intros Hbert text label lower_text final_risk.
  pose proof (first_step_returns clause) as Ht. fold text in Ht.
  destruct (generate_summary_returns E (is_hindi clause) text lower_text)
    as (log_s & rule_summary & Hs & Hlog & _).
  destruct (hybrid_suggestion_returns text label final_risk rule_summary
              lower_text) as (log_h & safer_alternative & Hh).
  exists log_s, rule_summary, log_h, safer_alternative.
  split; [exact Hs|]. split; [exact Hlog|]. split; [exact Hh|].
  unfold analyze_single_clause. rewrite Ht. cbn [mbind IO_bind].
  fold text in Hbert. rewrite Hbert. unfold external. cbn [mbind IO_bind].
  fold (label_of E pred_id). fold label. fold lower_text. fold final_risk.
  rewrite Hs. cbn [mbind IO_bind]. rewrite Hh. cbn [mbind IO_bind].
  rewrite lime_returns. cbn [mbind IO_bind mret IO_ret].
  rewrite app_nil_r. reflexivity.
Qed.

(** If the classifier raises, so does the analysis, and nothing further
    is called. *)
Lemma analyze_single_clause_raises clause :
  bert E (working_text E clause) = Raised ->
  analyze_single_clause E clause
  = (translate_calls clause ++ [Classify (working_text E clause)], Raised).
Proof.
  intros Hbert. pose proof (first_step_returns clause) as Ht.
  unfold analyze_single_clause. rewrite Ht. cbn [mbind IO_bind].
  rewrite Hbert. reflexivity.
Qed.

End Analysis.

(** ** Risk fusion *)

(** C2: when the lower-cased working text of a clause contains a
    configured high-risk keyword, the analysis returns the risk level
    ["High"], whatever class and confidence the classifier gives. *)
Theorem high_keyword_gives_high (E : Env) (clause : pystr)
    (pred_id : N) (confidence : Q) (keywords : list pystr) (k : pystr) :
  bert E (working_text E clause) = Returned (pred_id, confidence) ->
  risk_rules E !! "High" = Some keywords ->
  In k keywords ->
  str_contains k (lower E (working_text E clause)) = true ->
  exists log r,
    analyze_single_clause E clause = (log, Returned r)
    /\ Analysis.risk_level r = py "High".
Proof.
  intros Hbert Hrules Hin Hk.
  destruct (analyze_single_clause_returns E clause pred_id confidence Hbert)
    as (log_s & rule_summary & log_h & safer & _ & _ & _ & Ha).
  eexists _, _. split; [exact Ha|]. cbn [Analysis.risk_level].
  eapply risk_logic_high; eauto.
Qed.

Lemma high_keyword_gives_high_witness :
  exists log r,
    analyze_single_clause
      (example_env example_labels example_rules Raised
         (Returned (1%N, (1 # 2)%Q)) Raised)
      (py "The Client shall INDEMNIFY the Provider.")
    = (log, Returned r)
    /\ Analysis.risk_level r = py "High".
Proof.
  apply (high_keyword_gives_high
           (example_env example_labels example_rules Raised
              (Returned (1%N, (1 # 2)%Q)) Raised)
           (py "The Client shall INDEMNIFY the Provider.")
           1%N (1 # 2)%Q
           [py "unlimited liability"; py "indemnify"] (py "indemnify")).
  - reflexivity.
  - vm_compute. reflexivity.
  - right. left. reflexivity.
  - vm_compute. reflexivity.
Defined.

(** C1, as amended: when the lower-cased working text contains no
    configured high-risk keyword and at least one configured medium-risk
    keyword, the risk level is ["Medium"] unless the classifier's label is
    Indemnity, Liability or Termination, and ["High"] when it is. *)
Theorem medium_keyword_then_label (E : Env) (clause : pystr)
    (pred_id : N) (confidence : Q) (keywords : list pystr) (k : pystr) :
  bert E (working_text E clause) = Returned (pred_id, confidence) ->
  (forall highs h, risk_rules E !! "High" = Some highs -> In h highs ->
     str_contains h (lower E (working_text E clause)) = false) ->
  risk_rules E !! "Medium" = Some keywords ->
  In k keywords ->
  str_contains k (lower E (working_text E clause)) = true ->
  exists log r,
    analyze_single_clause E clause = (log, Returned r)
    /\ Analysis.label r = label_of E pred_id
    /\ Analysis.risk_level r =
       if existsb (str_eqb (Analysis.label r))
            [ py "Indemnity"; py "Liability"; py "Termination" ]
       then py "High" else py "Medium".
Proof.
  intros Hbert Hhigh Hrules Hin Hk.
  destruct (analyze_single_clause_returns E clause pred_id confidence Hbert)
    as (log_s & rule_summary & log_h & safer & _ & _ & _ & Ha).
  eexists _, _. split; [exact Ha|].
  cbn [Analysis.risk_level Analysis.label]. split; [reflexivity|].
  eapply risk_logic_medium; eauto.
Qed.

Lemma medium_keyword_then_label_witness :
  exists log r,
    analyze_single_clause
      (example_env example_labels example_rules Raised
         (Returned (1%N, (1 # 2)%Q)) Raised)
      (py "A late payment penalty of two percent applies.")
    = (log, Returned r)
    /\ Analysis.label r = py "Payment Terms"
    /\ Analysis.risk_level r = py "Medium".
Proof.
  cut (exists log r,
         analyze_single_clause
           (example_env example_labels example_rules Raised
              (Returned (1%N, (1 # 2)%Q)) Raised)
           (py "A late payment penalty of two percent applies.")
         = (log, Returned r)
         /\ Analysis.label r =
            label_of (example_env example_labels example_rules Raised
                        (Returned (1%N, (1 # 2)%Q)) Raised) 1%N
         /\ Analysis.risk_level r =
            if existsb (str_eqb (Analysis.label r))
                 [ py "Indemnity"; py "Liability"; py "Termination" ]
            then py "High" else py "Medium").
  { intros (log & r & Ha & Hl & Hr). exists log, r.
    split; [exact Ha|]. rewrite Hr, Hl. split; vm_compute; reflexivity. }
  apply (medium_keyword_then_label
           (example_env example_labels example_rules Raised
              (Returned (1%N, (1 # 2)%Q)) Raised)
           (py "A late payment penalty of two percent applies.")
           1%N (1 # 2)%Q [py "penalty"; py "terminate"] (py "penalty")).
  - reflexivity.
  - intros highs h Hl. vm_compute in Hl. injection Hl as <-.
    intros [<- | [<- | []]]; vm_compute; reflexivity.
  - vm_compute. reflexivity.
  - left. reflexivity.
  - vm_compute. reflexivity.
Defined.

(** C1, as stated, fails: with a medium-risk keyword, no high-risk keyword
    and the label Liability, the risk level is ["High"]. *)
Lemma medium_keyword_overridden_by_label :
  let E := example_env example_labels example_rules Raised
             (Returned (0%N, (9 # 10)%Q)) Raised in
  let clause := py "A late payment penalty of two percent applies." in
  let lower_text := lower E (working_text E clause) in
  (forall highs h, risk_rules E !! "High" = Some highs -> In h highs ->
     str_contains h lower_text = false)
  /\ (exists mediums k, risk_rules E !! "Medium" = Some mediums
        /\ In k mediums /\ str_contains k lower_text = true)
  /\ exists log r,
       analyze_single_clause E clause = (log, Returned r)
       /\ Analysis.label r = py "Liability"
       /\ Analysis.risk_level r = py "High"
       /\ Analysis.risk_level r <> py "Medium".
Proof.
  intros E clause lower_text. split; [|split].
  - intros highs h Hl. vm_compute in Hl. injection Hl as <-.
    intros [<- | [<- | []]]; vm_compute; reflexivity.
  - exists [py "penalty"; py "terminate"], (py "penalty").
    split; [vm_compute; reflexivity|].
    split; [left; reflexivity | vm_compute; reflexivity].
  - destruct (analyze_single_clause E clause) as [log [r|]] eqn:Ha;
      vm_compute in Ha; [|discriminate Ha].
    injection Ha as <- <-. eexists _, _. split; [reflexivity|].
    split; [vm_compute; reflexivity|].
    split; [vm_compute; reflexivity | vm_compute; discriminate].
Qed.

(** ** The safer alternative *)

Lemma ml_template_in_catalog (E : Env) (label lower_text : pystr) :
  In (ml_template E label lower_text) catalog.
Proof.
  unfold ml_template, catalog.
  repeat match goal with
         | |- context [if ?b then _ else _] => destruct b
         end;
    cbn [In]; repeat (first [left; reflexivity | right]).
Qed.

Lemma catalog_nonempty (s : pystr) : In s catalog -> s <> [].
Proof.
  unfold catalog. cbn [In].
  intros H; repeat (destruct H as [<- | H]; [vm_compute; discriminate|]).
  destruct H.
Qed.

Lemma catalog_size : length catalog = 8.
Proof. reflexivity. Qed.

(** An answer is accepted when it is non-empty and has more than 20 and at
    most 250 characters. *)
Lemma accepted_length (g : pystr) :
  truthy g && (20 <? length g) && (length g <=? 250) = true ->
  20 < length g <= 250.
Proof.
  intros H. apply andb_true_iff in H as [H H250].
  apply andb_true_iff in H as [_ H20].
  apply Nat.ltb_lt in H20. apply Nat.leb_le in H250. lia.
Qed.

(** C3: the safer alternative of a returned analysis is, when the risk
    level is ["High"], a non-empty string that is one of the constants of
    the catalog or an accepted answer of the chat completion API asked to
    refine the generic template, and it is the empty string when the risk
    level is ["Low"] or ["Medium"]. *)
Theorem safer_alternative_by_risk (E : Env) (clause : pystr)
    (pred_id : N) (confidence : Q) :
  bert E (working_text E clause) = Returned (pred_id, confidence) ->
  exists log r,
    analyze_single_clause E clause = (log, Returned r)
    /\ (Analysis.risk_level r = py "High" ->
        Analysis.safer_alternative r <> []
        /\ (In (Analysis.safer_alternative r) catalog
            \/ 20 < length (Analysis.safer_alternative r) <= 250
               /\ result (generate_gemini_safer_alternative E
                            (working_text E clause) (Analysis.label r)
                            (Analysis.risk_level r) (Analysis.rule_summary r)
                            SAFE_GENERAL)
                  = Returned (Some (Analysis.safer_alternative r))))
    /\ (Analysis.risk_level r = py "Low" \/ Analysis.risk_level r = py "Medium" ->
        Analysis.safer_alternative r = []).
Proof.
  intros Hbert.
  destruct (analyze_single_clause_returns E clause pred_id confidence Hbert)
    as (log_s & rule_summary & log_h & safer & _ & _ & Hh & Ha).
  eexists _, _. split; [exact Ha|].
  cbn [Analysis.risk_level Analysis.safer_alternative Analysis.label
       Analysis.rule_summary].
  set (text := working_text E clause) in *.
  set (label := label_of E pred_id) in *.
  set (final_risk := risk_logic (risk_rules E) (lower E text) label) in *.
  destruct (hybrid_suggestion_cases E text label final_risk rule_summary
              (lower E text))
    as [[Hrisk H] | [(Hrisk & _ & H) | (Hrisk & _ & _ & s & Hg & H)]];
    rewrite H in Hh; injection Hh as <- <-.
  - split.
    + intros Hr. rewrite Hr in Hrisk. discriminate Hrisk.
    + reflexivity.
  - split.
    + intros _. pose proof (ml_template_in_catalog E label (lower E text)) as Hc.
      split; [apply catalog_nonempty; exact Hc | left; exact Hc].
    + intros [Hr | Hr]; rewrite Hr in Hrisk; discriminate Hrisk.
  - split.
    + intros _.
      assert (Hgen : In SAFE_GENERAL catalog)
        by (unfold catalog; cbn [In]; repeat (first [left; reflexivity | right])).
      destruct s as [g|];
        [|split; [apply catalog_nonempty; exact Hgen | left; exact Hgen]].
      destruct (truthy g && (20 <? length g) && (length g <=? 250)) eqn:Hacc;
        [|split; [apply catalog_nonempty; exact Hgen | left; exact Hgen]].
      apply accepted_length in Hacc. split.
      * intros ->. simpl in Hacc. lia.
      * right. split; [exact Hacc|]. rewrite Hg. reflexivity.
    + intros [Hr | Hr]; rewrite Hr in Hrisk; discriminate Hrisk.
Qed.

Lemma safer_alternative_by_risk_witness :
  exists log r,
    analyze_single_clause
      (example_env example_labels example_rules Raised
         (Returned (0%N, (9 # 10)%Q)) Raised)
      (py "The Provider accepts unlimited liability for all losses.")
    = (log, Returned r)
    /\ Analysis.risk_level r = py "High"
    /\ Analysis.safer_alternative r = SAFE_LIABILITY.
Proof.
  destruct (safer_alternative_by_risk
              (example_env example_labels example_rules Raised
                 (Returned (0%N, (9 # 10)%Q)) Raised)
              (py "The Provider accepts unlimited liability for all losses.")
              0%N (9 # 10)%Q eq_refl) as (log & r & Ha & _ & _).
  exists log, r. split; [exact Ha|].
  vm_compute in Ha. injection Ha as <- <-. split; vm_compute; reflexivity.
Defined.

(** ** When the chat completion API is called *)

Lemma not_common_type (E : Env) (label : pystr) :
  is_common_type E label = false ->
  forall common, In common common_clause_types ->
    str_contains common (label_lower E label) = false.
Proof.
  unfold is_common_type. intros H common Hin.
  apply not_true_is_false. intros Hc.
  assert (Hex : existsb (fun common => str_contains common (label_lower E label))
                  common_clause_types = true)
    by (apply existsb_exists; exists common; split; assumption).
  rewrite H in Hex. discriminate.
Qed.

(** With [lower_keeps], a common clause type in the label as given is
    found in the lower-cased label too. *)
Lemma not_common_type_as_given (E : Env) (label : pystr) :
  lower_keeps E common_clause_types ->
  is_common_type E label = false ->
  forall common, In common common_clause_types ->
    str_contains common label = false.
Proof.
  intros Hkeeps Hcommon common Hin.
  pose proof (not_common_type E label Hcommon common Hin) as Hl.
  unfold label_lower in Hl. destruct label as [|c label].
  - unfold common_clause_types in Hin. cbn [In] in Hin.
    repeat (destruct Hin as [<- | Hin]; [reflexivity|]). destruct Hin.
  - cbn [truthy] in Hl. apply not_true_is_false. intros Hc.
    rewrite (Hkeeps common (c :: label) Hin Hc) in Hl. discriminate.
Qed.

(** [str.lower] on ASCII text keeps the common clause types. *)
Lemma ascii_lower_keeps (labels : list (N * pystr))
    (rules : list (string * list pystr)) (translated : outcome pystr)
    (classified : outcome (N * Q)) (answer : outcome Response) :
  lower_keeps (example_env labels rules translated classified answer)
    common_clause_types.
Proof.
  intros sub s Hin Hc. cbn [lower example_env].
  apply str_contains_spec in Hc as (pre & post & ->).
  apply str_contains_spec. unfold ascii_lower. rewrite !map_app.
  eexists _, _. f_equal. f_equal.
  unfold common_clause_types in Hin. cbn [In] in Hin.
  repeat (destruct Hin as [<- | Hin]; [reflexivity|]). destruct Hin.
Qed.

(** The calls of the hybrid block: none, or the one chat completion, and
    this only for a high risk, an uncommon label and the generic
    template. *)
Lemma hybrid_suggestion_calls (E : Env)
    (text label final_risk rule_summary lower_text : pystr) (c : call) :
  In c (calls (hybrid_suggestion E text label final_risk rule_summary lower_text)) ->
  c = ChatCompletion (chat_payload text label final_risk rule_summary SAFE_GENERAL)
  /\ str_eqb final_risk (py "High") || str_eqb final_risk (py "Critical") = true
  /\ is_common_type E label = false
  /\ ml_template E label lower_text = SAFE_GENERAL.
Proof.
  destruct (hybrid_suggestion_cases E text label final_risk rule_summary lower_text)
    as [[_ H] | [(_ & _ & H) | (Hrisk & Hcommon & Hgen & s & _ & H)]];
    rewrite H; cbn [calls fst In]; try tauto.
  intros [<- | []]. auto.
Qed.

(** C5: if the analysis of a clause calls the chat completion API, then
    the classifier answered, the risk is high, the label contains none of
    the common clause types (the code looks for them in the lower-cased
    label, and so none is in the label as given either), and the template
    chosen is the generic one; so for a label of a common type the API is
    not called. *)
Theorem chat_completion_only_uncommon_generic (E : Env) (clause : pystr)
    (payload : ChatPayload) :
  In (ChatCompletion payload) (calls (analyze_single_clause E clause)) ->
  exists pred_id confidence,
    bert E (working_text E clause) = Returned (pred_id, confidence)
    /\ is_common_type E (label_of E pred_id) = false
    /\ (forall common, In common common_clause_types ->
          str_contains common (label_lower E (label_of E pred_id)) = false)
    /\ ml_template E (label_of E pred_id) (lower E (working_text E clause))
       = SAFE_GENERAL
    /\ risk_logic (risk_rules E) (lower E (working_text E clause))
         (label_of E pred_id) = py "High"
    /\ (lower_keeps E common_clause_types ->
        forall common, In common common_clause_types ->
          str_contains common (label_of E pred_id) = false).
Proof.
  intros Hin.
  assert (Htr : ~ In (ChatCompletion payload) (translate_calls clause)).
  { unfold translate_calls.
    destruct (is_hindi clause); [|intros []].
    destruct (str_contains uttardayi clause || str_contains harzana clause);
      [intros [] | intros [[=] | []]]. }
  destruct (bert E (working_text E clause)) as [[pred_id confidence]|] eqn:Hbert.
  - exists pred_id, confidence. split; [reflexivity|].
    destruct (analyze_single_clause_returns E clause pred_id confidence Hbert)
      as (log_s & rule_summary & log_h & safer & _ & Hls & Hh & Ha).
    rewrite Ha in Hin. cbn [calls fst] in Hin.
    apply in_app_or in Hin as [Hin | Hin]; [contradiction|].
    apply in_app_or in Hin as [[[=] | []] | Hin].
    apply in_app_or in Hin as [Hin | Hin].
    { destruct Hls as [-> | ->]; [destruct Hin | destruct Hin as [[=] | []]]. }
    apply in_app_or in Hin as [Hin | [[=] | []]].
    assert (Hc : In (ChatCompletion payload)
                   (calls (hybrid_suggestion E (working_text E clause)
                             (label_of E pred_id)
                             (risk_logic (risk_rules E)
                                (lower E (working_text E clause))
                                (label_of E pred_id))
                             rule_summary (lower E (working_text E clause)))))
      by (rewrite Hh; exact Hin).
    apply hybrid_suggestion_calls in Hc as (_ & Hrisk & Hcommon & Hgen).
    split; [exact Hcommon|].
    split; [apply not_common_type; exact Hcommon|].
    split; [exact Hgen|]. split.
    + rewrite high_or_critical in Hrisk by apply risk_logic_values.
      apply str_eqb_eq. exact Hrisk.
    + intros Hkeeps. apply (not_common_type_as_given E); assumption.
  - rewrite (analyze_single_clause_raises E clause Hbert) in Hin.
    cbn [calls fst] in Hin.
    apply in_app_or in Hin as [Hin | [[=] | []]]. contradiction.
Qed.

Lemma chat_completion_only_uncommon_generic_witness :
  exists pred_id confidence,
    bert (example_env example_labels example_rules Raised
            (Returned (1%N, (1 # 2)%Q)) Raised)
         (py "The Client shall indemnify the Provider.")
    = Returned (pred_id, confidence)
    /\ label_of (example_env example_labels example_rules Raised
                   (Returned (1%N, (1 # 2)%Q)) Raised) pred_id
       = py "Payment Terms"
    /\ forall common, In common common_clause_types ->
         str_contains common
           (label_of (example_env example_labels example_rules Raised
                        (Returned (1%N, (1 # 2)%Q)) Raised) pred_id)
         = false.
Proof.
  destruct (chat_completion_only_uncommon_generic
              (example_env example_labels example_rules Raised
                 (Returned (1%N, (1 # 2)%Q)) Raised)
              (py "The Client shall indemnify the Provider.")
              (chat_payload (py "The Client shall indemnify the Provider.")
                 (py "Payment Terms") (py "High")
                 (py "Summary unavailable.") SAFE_GENERAL))
    as (pred_id & confidence & Hbert & _ & _ & _ & _ & Hgiven).
  - vm_compute. do 2 right. left. reflexivity.
  - exists pred_id, confidence. split; [exact Hbert|]. split.
    + vm_compute in Hbert. injection Hbert as <- _. vm_compute. reflexivity.
    + apply Hgiven. apply ascii_lower_keeps.
Defined.

(** For a label of a common type no chat completion is requested. *)
Lemma common_type_never_refined (E : Env) (clause : pystr)
    (pred_id : N) (confidence : Q) :
  bert E (working_text E clause) = Returned (pred_id, confidence) ->
  is_common_type E (label_of E pred_id) = true ->
  forall c, In c (calls (analyze_single_clause E clause)) ->
            is_chat_completion c = false.
Proof.
  intros Hbert Hcommon c Hin.
  destruct (analyze_single_clause_returns E clause pred_id confidence Hbert)
    as (log_s & rule_summary & log_h & safer & _ & Hls & Hh & Ha).
  rewrite Ha in Hin. cbn [calls fst] in Hin.
  apply in_app_or in Hin as [Hin | Hin].
  { unfold translate_calls in Hin.
    destruct (is_hindi clause); [|destruct Hin].
    destruct (str_contains uttardayi clause || str_contains harzana clause);
      [destruct Hin | destruct Hin as [<- | []]; reflexivity]. }
  apply in_app_or in Hin as [[<- | []] | Hin]; [reflexivity|].
  apply in_app_or in Hin as [Hin | Hin].
  { destruct Hls as [-> | ->]; [destruct Hin | destruct Hin as [<- | []]];
      reflexivity. }
  apply in_app_or in Hin as [Hin | [<- | []]]; [|reflexivity].
  assert (Hc : In c (calls (hybrid_suggestion E (working_text E clause)
                              (label_of E pred_id)
                              (risk_logic (risk_rules E)
                                 (lower E (working_text E clause))
                                 (label_of E pred_id))
                              rule_summary (lower E (working_text E clause)))))
    by (rewrite Hh; exact Hin).
  apply hybrid_suggestion_calls in Hc as (_ & _ & Hnc & _).
  rewrite Hnc in Hcommon. discriminate.
Qed.

(** ** Acceptance of the refined text *)

(** The hybrid block returns the template or an answer of more than 20 and
    at most 250 characters; it does not raise. *)
Lemma hybrid_suggestion_bounds (E : Env)
    (text label final_risk rule_summary lower_text : pystr) :
  str_eqb final_risk (py "High") || str_eqb final_risk (py "Critical") = true ->
  exists log safer_alternative,
    hybrid_suggestion E text label final_risk rule_summary lower_text
    = (log, Returned safer_alternative)
    /\ (safer_alternative = ml_template E label lower_text
        \/ 20 < length safer_alternative <= 250).
Proof.
  intros Hrisk.
  destruct (hybrid_suggestion_cases E text label final_risk rule_summary lower_text)
    as [[Hno _] | [(_ & _ & H) | (_ & _ & Hgen & s & _ & H)]].
  - rewrite Hrisk in Hno. discriminate.
  - rewrite H. eexists _, _. split; [reflexivity | left; reflexivity].
  - rewrite H. eexists _, _. split; [reflexivity|]. rewrite Hgen.
    destruct s as [g|]; [|left; reflexivity].
    destruct (truthy g && (20 <? length g) && (length g <=? 250)) eqn:Hacc;
      [right; apply accepted_length; exact Hacc | left; reflexivity].
Qed.

(** C6 fails at the upper bound: an answer of exactly 250 characters is not
    strictly between 20 and 250 characters long, and it replaces the
    generic template. *)
Theorem answer_of_250_characters_accepted :
  let answer := repeat 97%N 250 in
  let E := example_env example_labels example_rules Raised
             (Returned (1%N, (1 # 2)%Q)) (answer_with answer) in
  let clause := py "The Client shall indemnify the Provider." in
  length answer = 250
  /\ exists log r,
       analyze_single_clause E clause = (log, Returned r)
       /\ ml_template E (Analysis.label r) (lower E (working_text E clause))
          = SAFE_GENERAL
       /\ Analysis.safer_alternative r = answer
       /\ Analysis.safer_alternative r <> SAFE_GENERAL.
Proof.
  intros answer E clause. split; [reflexivity|].
  destruct (analyze_single_clause E clause) as [log [r|]] eqn:Ha;
    vm_compute in Ha; [|discriminate Ha].
  injection Ha as <- <-. eexists _, _. split; [reflexivity|].
  split; [vm_compute; reflexivity|].
  split; [vm_compute; reflexivity | vm_compute; discriminate].
Qed.

(** One character more and the template stays. *)
Example answer_of_251_characters_rejected :
  let E := example_env example_labels example_rules Raised
             (Returned (1%N, (1 # 2)%Q)) (answer_with (repeat 97%N 251)) in
  Analysis.safer_alternative
    match result (analyze_single_clause E
                    (py "The Client shall indemnify the Provider.")) with
    | Returned r => r
    | Raised => {| Analysis.text := []; Analysis.label := [];
                   Analysis.risk_level := []; Analysis.confidence := 0;
                   Analysis.rule_summary := []; Analysis.safer_alternative := [];
                   Analysis.lime_explanation := [] |}
    end
  = SAFE_GENERAL.
Proof. vm_compute. reflexivity. Qed.

(** ** Empty input *)

Lemma analyze_document_rejects_empty (E : Env) :
  analyze_document E (Some []) = ([], Returned (Error (py "Empty text"), 400%Z))
  /\ analyze_document E None = ([], Returned (Error (py "Empty text"), 400%Z)).
Proof. split; reflexivity. Qed.

(** C7 fails for the route [summarize]: on the empty text it calls the
    classifier and does not answer with status 400, whereas
    [analyze_document] answers 400 without any call. *)
Theorem summarize_analyzes_empty_text (E : Env) :
  In (Classify []) (calls (summarize E (Some [])))
  /\ (forall body, result (summarize E (Some [])) <> Returned (body, 400%Z))
  /\ calls (analyze_document E (Some [])) = []
  /\ result (analyze_document E (Some []))
     = Returned (Error (py "Empty text"), 400%Z).
Proof.
  assert (Hw : working_text E [] = []) by reflexivity.
  split; [|split; [|split; reflexivity]].
  - unfold summarize. change (default [] (Some [])) with (@nil N).
    destruct (bert E (working_text E [])) as [[pred_id confidence]|] eqn:Hbert.
    + destruct (analyze_single_clause_returns E [] pred_id confidence Hbert)
        as (log_s & rule_summary & log_h & safer & _ & _ & _ & Ha).
      rewrite Ha. cbn [mbind IO_bind mret IO_ret calls fst translate_calls
                       is_hindi existsb app].
      rewrite Hw. rewrite app_nil_r. left. reflexivity.
    + rewrite (analyze_single_clause_raises E [] Hbert).
      cbn [mbind IO_bind calls fst translate_calls is_hindi existsb app].
      rewrite Hw. left. reflexivity.
  - intros body. unfold summarize. change (default [] (Some [])) with (@nil N).
    destruct (bert E (working_text E [])) as [[pred_id confidence]|] eqn:Hbert.
    + destruct (analyze_single_clause_returns E [] pred_id confidence Hbert)
        as (log_s & rule_summary & log_h & safer & _ & _ & _ & Ha).
      rewrite Ha. cbn [mbind IO_bind mret IO_ret result snd]. intros [=].
    + rewrite (analyze_single_clause_raises E [] Hbert).
      cbn [mbind IO_bind result snd]. discriminate.
Qed.

(** ** Translation *)

Lemma is_hindi_contains (w text : pystr) :
  str_contains w text = true -> is_hindi w = true -> is_hindi text = true.
Proof.
  intros Hc Hw. apply str_contains_spec in Hc as (pre & post & ->).
  unfold is_hindi in *. rewrite !existsb_app, Hw.
  rewrite orb_true_l, orb_true_r. reflexivity.
Qed.

Lemma hard_coded_is_hindi (text : pystr) :
  str_contains uttardayi text || str_contains harzana text = true ->
  is_hindi text = true.
Proof.
  intros H. apply orb_true_iff in H as [H | H];
    eapply is_hindi_contains; eauto; reflexivity.
Qed.

Lemma hard_coded_working_text (E : Env) (text : pystr) :
  str_contains uttardayi text || str_contains harzana text = true ->
  working_text E text = liable_sentence /\ translate_calls text = [].
Proof.
  intros H. unfold working_text, translation, translate_calls.
  rewrite (hard_coded_is_hindi text H), H. split; reflexivity.
Qed.

(** C8: the analysis returns once the classifier has answered, whatever
    the translator did; its [text] is the clause as given, while the
    classifier is called on the working text and label and risk level are
    computed from it.  For a Hindi clause sent to the translator the
    working text is the translator's answer, and the clause itself when
    the translator raised. *)
Theorem text_is_the_given_clause (E : Env) (clause : pystr)
    (pred_id : N) (confidence : Q) :
  bert E (working_text E clause) = Returned (pred_id, confidence) ->
  exists log r,
    analyze_single_clause E clause = (log, Returned r)
    /\ Analysis.text r = clause
    /\ In (Classify (working_text E clause)) log
    /\ Analysis.label r = label_of E pred_id
    /\ Analysis.risk_level r =
       risk_logic (risk_rules E) (lower E (working_text E clause))
         (label_of E pred_id)
    /\ (is_hindi clause = false -> working_text E clause = clause)
    /\ (is_hindi clause = true ->
        str_contains uttardayi clause || str_contains harzana clause = false ->
        In (Translate clause) log
        /\ working_text E clause =
           match translator_translate E clause with
           | Returned english => english
           | Raised => clause
           end).
Proof.
  intros Hbert.
  destruct (analyze_single_clause_returns E clause pred_id confidence Hbert)
    as (log_s & rule_summary & log_h & safer & _ & _ & _ & Ha).
  eexists _, _. split; [exact Ha|].
  cbn [Analysis.text Analysis.label Analysis.risk_level].
  split; [reflexivity|]. split.
  { apply in_or_app. right. left. reflexivity. }
  split; [reflexivity|]. split; [reflexivity|]. split.
  - intros Hh. unfold working_text. rewrite Hh. reflexivity.
  - intros Hh Hw. split.
    + apply in_or_app. left. unfold translate_calls. rewrite Hh, Hw.
      left. reflexivity.
    + unfold working_text, translation. rewrite Hh, Hw. reflexivity.
Qed.

Lemma text_is_the_given_clause_witness :
  exists log r,
    analyze_single_clause
      (example_env example_labels example_rules Raised
         (Returned (1%N, (1 # 2)%Q)) Raised)
      [2351; 2361; 32; 2309; 2344; 2369; 2348; 2306; 2343]%N
    = (log, Returned r)
    /\ Analysis.text r = [2351; 2361; 32; 2309; 2344; 2369; 2348; 2306; 2343]%N
    /\ In (Classify [2351; 2361; 32; 2309; 2344; 2369; 2348; 2306; 2343]%N) log.
Proof.
  destruct (text_is_the_given_clause
              (example_env example_labels example_rules Raised
                 (Returned (1%N, (1 # 2)%Q)) Raised)
              [2351; 2361; 32; 2309; 2344; 2369; 2348; 2306; 2343]%N
              1%N (1 # 2)%Q eq_refl)
    as (log & r & Ha & Ht & Hc & _).
  exists log, r. split; [exact Ha|]. split; [exact Ht|]. exact Hc.
Defined.

(** What the analysis of a clause with one of the two words is. *)
Lemma analyze_hard_coded (E : Env) (text : pystr) :
  str_contains uttardayi text || str_contains harzana text = true ->
  match bert E liable_sentence with
  | Returned (pred_id, confidence) =>
      exists log r,
        analyze_single_clause E liable_sentence = (log, Returned r)
        /\ exists log_h safer_alternative,
             hybrid_suggestion E liable_sentence (Analysis.label r)
               (Analysis.risk_level r)
               (py "This Hindi clause (translated) outlines responsibilities. Please review the English translation carefully.")
               (lower E liable_sentence)
             = (log_h, Returned safer_alternative)
             /\ analyze_single_clause E text
                = ([Classify liable_sentence] ++ log_h
                   ++ [Explain liable_sentence pred_id],
                   Returned
                     {| Analysis.text := text;
                        Analysis.label := Analysis.label r;
                        Analysis.risk_level := Analysis.risk_level r;
                        Analysis.confidence := Analysis.confidence r;
                        Analysis.rule_summary :=
                          py "This Hindi clause (translated) outlines responsibilities. Please review the English translation carefully.";
                        Analysis.safer_alternative := safer_alternative;
                        Analysis.lime_explanation := Analysis.lime_explanation r |})
  | Raised =>
      analyze_single_clause E text = ([Classify liable_sentence], Raised)
  end.
Proof.
  intros H. destruct (hard_coded_working_text E text H) as [Hw Hc].
  assert (Hl : working_text E liable_sentence = liable_sentence) by reflexivity.
  destruct (bert E liable_sentence) as [[pred_id confidence]|] eqn:Hbert.
  - assert (Hb : bert E (working_text E text) = Returned (pred_id, confidence))
      by (rewrite Hw; exact Hbert).
    assert (Hb' : bert E (working_text E liable_sentence)
                  = Returned (pred_id, confidence))
      by (rewrite Hl; exact Hbert).
    destruct (analyze_single_clause_returns E _ _ _ Hb')
      as (log_s' & rs' & log_h' & safer' & _ & _ & _ & Ha').
    destruct (analyze_single_clause_returns E _ _ _ Hb)
      as (log_s & rs & log_h & safer & Hs & _ & Hh & Ha).
    rewrite Hl in Ha'. rewrite Hw, Hc in Ha. rewrite Hw in Hs, Hh.
    rewrite (hard_coded_is_hindi text H) in Hs.
    cbn [generate_summary mret IO_ret] in Hs. injection Hs as <- <-.
    eexists _, _. split; [exact Ha'|].
    cbn [Analysis.label Analysis.risk_level Analysis.confidence
         Analysis.lime_explanation].
    exists log_h, safer. split; [exact Hh|]. exact Ha.
  - rewrite (analyze_single_clause_raises E text); rewrite Hw, ?Hc;
      [reflexivity | exact Hbert].
Qed.

(** C10: for a text with उत्तरदायी or हर्ज़ाना, [translate_to_english]
    returns the fixed English sentence and calls no translator; the
    analysis of such a clause works on that sentence, so that two such
    clauses make the same calls and get the same findings. *)
Theorem hard_coded_translation (E : Env) (text : pystr) :
  str_contains uttardayi text || str_contains harzana text = true ->
  translate_to_english E text = ([], Returned liable_sentence)
  /\ working_text E text = liable_sentence
  /\ (forall c, In c (calls (analyze_single_clause E text)) ->
        is_translate c = false)
  /\ In (Classify liable_sentence) (calls (analyze_single_clause E text))
  /\ (forall text',
        str_contains uttardayi text' || str_contains harzana text' = true ->
        calls (analyze_single_clause E text')
        = calls (analyze_single_clause E text)
        /\ match result (analyze_single_clause E text),
                 result (analyze_single_clause E text') with
           | Returned r, Returned r' => same_findings r r'
           | Raised, Raised => True
           | _, _ => False
           end).
Proof.
  intros H.
  split; [rewrite translate_to_english_returns, H; unfold translation;
          rewrite H; reflexivity|].
  split; [apply hard_coded_working_text; exact H|].
  pose proof (analyze_hard_coded E text H) as Ha.
  split; [|split].
  - intros c.
    destruct (bert E liable_sentence) as [[pred_id confidence]|].
    + destruct Ha as (log & r & _ & log_h & safer & Hh & ->).
      cbn [calls fst]. intros Hin.
      apply in_app_or in Hin as [[<- | []] | Hin]; [reflexivity|].
      apply in_app_or in Hin as [Hin | [<- | []]]; [|reflexivity].
      assert (Hc : In c (calls (hybrid_suggestion E liable_sentence
                (Analysis.label r) (Analysis.risk_level r)
                (py "This Hindi clause (translated) outlines responsibilities. Please review the English translation carefully.")
                (lower E liable_sentence))))
        by (rewrite Hh; exact Hin).
      apply hybrid_suggestion_calls in Hc as (-> & _). reflexivity.
    + rewrite Ha. cbn [calls fst]. intros [<- | []]. reflexivity.
  - destruct (bert E liable_sentence) as [[pred_id confidence]|].
    + destruct Ha as (log & r & _ & log_h & safer & _ & ->).
      left. reflexivity.
    + rewrite Ha. left. reflexivity.
  - intros text' H'. pose proof (analyze_hard_coded E text' H') as Ha'.
    destruct (bert E liable_sentence) as [[pred_id confidence]|].
    + destruct Ha as (log & r & Hr & log_h & safer & Hh & ->).
      destruct Ha' as (log' & r' & Hr' & log_h' & safer' & Hh' & ->).
      rewrite Hr in Hr'. injection Hr' as <- <-.
      rewrite Hh in Hh'. injection Hh' as <- <-.
      split; [reflexivity|]. cbn [result snd]. unfold same_findings.
      cbn [Analysis.label Analysis.risk_level Analysis.confidence
           Analysis.rule_summary Analysis.safer_alternative
           Analysis.lime_explanation].
      repeat split.
    + rewrite Ha, Ha'. split; [reflexivity | exact I].
Qed.

Lemma hard_coded_translation_witness :
  translate_to_english
    (example_env example_labels example_rules (Returned (py "unused"))
       (Returned (1%N, (1 # 2)%Q)) Raised)
    (py "clause 7: " ++ harzana)
  = ([], Returned liable_sentence).
Proof.
  apply (hard_coded_translation
           (example_env example_labels example_rules (Returned (py "unused"))
              (Returned (1%N, (1 # 2)%Q)) Raised)
           (py "clause 7: " ++ harzana)).
  vm_compute. reflexivity.
Defined.

(** ** Confidence *)

Section Rounding.
Open Scope Z_scope.

Lemma round_half_even_cases (n : Z) (d : positive) :
  let q := n / Zpos d in
  let r := n mod Zpos d in
  n = Zpos d * q + r /\ 0 <= r < Zpos d
  /\ (round_half_even (n # d) = q /\ 2 * r <= Zpos d
      \/ round_half_even (n # d) = q + 1 /\ Zpos d <= 2 * r).
Proof.
  intros q r.
  assert (Hd : 0 < Zpos d) by reflexivity.
  split; [apply Z.div_mod; lia|].
  split; [apply Z.mod_pos_bound; exact Hd|].
  unfold round_half_even. cbn [Qnum Qden]. fold q r.
  destruct (Z.compare_spec (2 * r) (Zpos d)) as [He | Hl | Hg].
  - destruct (Z.even q); [left | right]; split; lia.
  - left. split; lia.
  - right. split; lia.
Qed.

(** Rounding stays between integer bounds. *)
Lemma round_half_even_between (x : Q) (lo hi : Z) :
  (inject_Z lo <= x)%Q -> (x <= inject_Z hi)%Q ->
  lo <= round_half_even x <= hi.
Proof.
  destruct x as [n d]. unfold Qle, inject_Z. cbn [Qnum Qden].
  intros Hlo Hhi.
  destruct (round_half_even_cases n d) as (Hn & Hr & [[-> H] | [-> H]]);
    set (q := n / Zpos d) in *; set (r := n mod Zpos d) in *;
    assert (Hd : 0 < Zpos d) by reflexivity; nia.
Qed.

(** Rounding moves by at most one half. *)
Lemma round_half_even_close (x : Q) :
  (inject_Z (round_half_even x) - (1 # 2) <= x
   /\ x <= inject_Z (round_half_even x) + (1 # 2))%Q.
Proof.
  destruct x as [n d].
  destruct (round_half_even_cases n d) as (Hn & Hr & [[-> H] | [-> H]]);
    set (q := n / Zpos d) in *; set (r := n mod Zpos d) in *;
    unfold Qle, Qminus, Qplus, Qopp, inject_Z; cbn [Qnum Qden];
    rewrite ?Pos2Z.inj_mul;
    assert (Hd : 0 < Zpos d) by reflexivity; split; nia.
Qed.

End Rounding.

(** [round(x, 2)] of a number between two integers lies between them, and
    differs from the number by at most 1/200. *)
Lemma round_2_between (x : Q) (lo hi : Z) :
  (inject_Z lo <= x)%Q -> (x <= inject_Z hi)%Q ->
  (inject_Z lo <= round x 2 /\ round x 2 <= inject_Z hi)%Q.
Proof.
  intros Hlo Hhi. unfold round.
  change (10 ^ Z.of_nat 2)%Z with 100%Z. change (Z.to_pos 100) with 100%positive.
  assert (H : (lo * 100 <= round_half_even (x * inject_Z 100) <= hi * 100)%Z).
  { apply round_half_even_between.
    - rewrite inject_Z_mult. apply Qmult_le_compat_r; [exact Hlo | discriminate].
    - rewrite inject_Z_mult. apply Qmult_le_compat_r; [exact Hhi | discriminate]. }
  set (m := round_half_even (x * inject_Z 100)) in *.
  unfold Qle, inject_Z. cbn [Qnum Qden]. lia.
Qed.

Lemma round_2_close (x : Q) :
  (x - (1 # 200) <= round x 2 /\ round x 2 <= x + (1 # 200))%Q.
Proof.
  unfold round.
  change (10 ^ Z.of_nat 2)%Z with 100%Z. change (Z.to_pos 100) with 100%positive.
  destruct (round_half_even_close (x * inject_Z 100)) as [Hlo Hhi].
  set (m := round_half_even (x * inject_Z 100)) in *.
  destruct x as [n d].
  unfold Qle, Qminus, Qplus, Qopp, Qmult, inject_Z in *. cbn [Qnum Qden] in *.
  rewrite ?Pos2Z.inj_mul in *.
  assert (Hd : (0 < Zpos d)%Z) by reflexivity. split; nia.
Qed.

(** C4, as amended: the confidence of a returned analysis is the
    probability the classifier gave, times 100 and rounded to two
    decimals: a percentage between 0 and 100, within 1/200 of the
    hundredfold probability. *)
Theorem confidence_is_a_percentage (E : Env) (clause : pystr)
    (pred_id : N) (confidence : Q) :
  bert E (working_text E clause) = Returned (pred_id, confidence) ->
  (0 <= confidence)%Q -> (confidence <= 1)%Q ->
  exists log r,
    analyze_single_clause E clause = (log, Returned r)
    /\ Analysis.confidence r = round (confidence * 100)%Q 2
    /\ (0 <= Analysis.confidence r)%Q
    /\ (Analysis.confidence r <= 100)%Q
    /\ (confidence * 100 - (1 # 200) <= Analysis.confidence r)%Q
    /\ (Analysis.confidence r <= confidence * 100 + (1 # 200))%Q.
Proof.
  intros Hbert H0 H1.
  destruct (analyze_single_clause_returns E clause pred_id confidence Hbert)
    as (log_s & rule_summary & log_h & safer & _ & _ & _ & Ha).
  eexists _, _. split; [exact Ha|]. cbn [Analysis.confidence].
  split; [reflexivity|].
  destruct (round_2_between (confidence * 100)%Q 0 100) as [Hlo Hhi].
  - change (inject_Z 0) with (0 * 100)%Q.
    apply Qmult_le_compat_r; [exact H0 | discriminate].
  - change (inject_Z 100) with (1 * 100)%Q.
    apply Qmult_le_compat_r; [exact H1 | discriminate].
  - destruct (round_2_close (confidence * 100)%Q) as [Hc1 Hc2].
    repeat split; assumption.
Qed.

Lemma confidence_is_a_percentage_witness :
  exists log r,
    analyze_single_clause
      (example_env example_labels example_rules Raised
         (Returned (1%N, (7 # 8)%Q)) Raised)
      (py "The Client shall indemnify the Provider.")
    = (log, Returned r)
    /\ Analysis.confidence r = (8750 # 100)%Q.
Proof.
  destruct (confidence_is_a_percentage
              (example_env example_labels example_rules Raised
                 (Returned (1%N, (7 # 8)%Q)) Raised)
              (py "The Client shall indemnify the Provider.")
              1%N (7 # 8)%Q eq_refl) as (log & r & Ha & Hc & _).
  - discriminate.
  - discriminate.
  - exists log, r. split; [exact Ha|]. rewrite Hc. reflexivity.
Defined.

(** C4, as stated, fails: for the probability 1/2 the confidence returned
    is 50, which is neither the probability nor a value in [0,1]. *)
Lemma confidence_is_not_the_probability :
  let E := example_env example_labels example_rules Raised
             (Returned (1%N, (1 # 2)%Q)) Raised in
  let clause := py "The fee is payable within thirty days of the invoice." in
  exists log r,
    analyze_single_clause E clause = (log, Returned r)
    /\ (Analysis.confidence r == 50)%Q
    /\ ~ (Analysis.confidence r == 1 # 2)%Q
    /\ ~ (Analysis.confidence r <= 1)%Q.
Proof.
  intros E clause.
  destruct (analyze_single_clause E clause) as [log [r|]] eqn:Ha;
    vm_compute in Ha; [|discriminate Ha].
  injection Ha as <- <-. eexists _, _. split; [reflexivity|].
  cbn [Analysis.confidence]. split; [reflexivity|].
  split; intros H; vm_compute in H; [discriminate H | apply H; reflexivity].
Qed.

(* ================================================================== *)
(** * Part III. Further properties of the service                      *)
(* ================================================================== *)

(** ** Risk levels *)

(** The three stages of the risk logic as one decision. *)
Lemma risk_logic_decision (rules : gmap string (list pystr))
    (lower_text label : pystr) :
  risk_logic rules lower_text label =
  if keyword_hit rules "High" lower_text || high_stakes_label label
  then py "High"
  else if keyword_hit rules "Medium" lower_text then py "Medium"
  else py "Low".
Proof.
  unfold risk_logic, keyword_hit. fold (high_stakes_label label).
  destruct (rules !! "High") as [highs|];
    [rewrite scan_keywords_existsb;
     destruct (existsb _ highs);
     [rewrite high_is_high; reflexivity|] |];
    rewrite low_is_not_high; cbn [negb orb];
    (destruct (rules !! "Medium") as [mediums|];
     [rewrite scan_keywords_existsb; destruct (existsb _ mediums);
      [rewrite medium_is_not_high | rewrite low_is_not_high]
     | rewrite low_is_not_high]);
    cbn [negb andb]; destruct (high_stakes_label label); reflexivity.
Qed.

(** X1: for the labels Indemnity, Liability and Termination the risk
    level is ["High"], whatever the clause says and whatever keywords are
    configured. *)
Theorem high_stakes_label_gives_high (E : Env) (clause : pystr)
    (pred_id : N) (confidence : Q) :
  bert E (working_text E clause) = Returned (pred_id, confidence) ->
  high_stakes_label (label_of E pred_id) = true ->
  exists log r,
    analyze_single_clause E clause = (log, Returned r)
    /\ Analysis.label r = label_of E pred_id
    /\ Analysis.risk_level r = py "High"
    /\ Analysis.safer_alternative r <> [].
Proof.
  intros Hbert Hlabel.
  destruct (analyze_single_clause_returns E clause pred_id confidence Hbert)
    as (log_s & rule_summary & log_h & safer & _ & _ & Hh & Ha).
  eexists _, _. split; [exact Ha|].
  cbn [Analysis.label Analysis.risk_level Analysis.safer_alternative].
  split; [reflexivity|].
  assert (Hr : risk_logic (risk_rules E) (lower E (working_text E clause))
                 (label_of E pred_id) = py "High").
  { rewrite risk_logic_decision, Hlabel, orb_true_r. reflexivity. }
  split; [exact Hr|].
  rewrite Hr in Hh.
  destruct (hybrid_suggestion_bounds E (working_text E clause)
              (label_of E pred_id) (py "High") rule_summary
              (lower E (working_text E clause)) eq_refl)
    as (log' & s' & Hb & Hs).
  rewrite Hb in Hh. injection Hh as <- <-.
  destruct Hs as [-> | Hlen].
  - apply catalog_nonempty, ml_template_in_catalog.
  - intros ->. simpl in Hlen. lia.
Qed.

Lemma high_stakes_label_gives_high_witness :
  exists log r,
    analyze_single_clause
      (example_env example_labels example_rules Raised
         (Returned (0%N, (9 # 10)%Q)) Raised)
      (py "The fee is payable within thirty days of the invoice.")
    = (log, Returned r)
    /\ Analysis.label r = py "Liability"
    /\ Analysis.risk_level r = py "High".
Proof.
  destruct (high_stakes_label_gives_high
              (example_env example_labels example_rules Raised
                 (Returned (0%N, (9 # 10)%Q)) Raised)
              (py "The fee is payable within thirty days of the invoice.")
              0%N (9 # 10)%Q eq_refl eq_refl)
    as (log & r & Ha & Hl & Hr & _).
  exists log, r. split; [exact Ha|]. split; [|exact Hr].
  rewrite Hl. vm_compute. reflexivity.
Defined.

(** X2: the risk level is ["Low"] exactly when no configured high-risk or
    medium-risk keyword occurs in the lower-cased working text and the
    label is none of the three; then there is no safer alternative and the
    chat completion API is not called.  A missing key of [risk_rules]
    counts as no keyword. *)
Theorem low_risk_exactly (E : Env) (clause : pystr)
    (pred_id : N) (confidence : Q) :
  bert E (working_text E clause) = Returned (pred_id, confidence) ->
  exists log r,
    analyze_single_clause E clause = (log, Returned r)
    /\ (Analysis.risk_level r = py "Low" <->
        keyword_hit (risk_rules E) "High" (lower E (working_text E clause)) = false
        /\ keyword_hit (risk_rules E) "Medium" (lower E (working_text E clause)) = false
        /\ high_stakes_label (label_of E pred_id) = false)
    /\ (Analysis.risk_level r = py "Low" ->
        Analysis.safer_alternative r = []
        /\ forall c, In c log -> is_chat_completion c = false).
Proof.
  intros Hbert.
  destruct (analyze_single_clause_returns E clause pred_id confidence Hbert)
    as (log_s & rule_summary & log_h & safer & _ & Hls & Hh & Ha).
  eexists _, _. split; [exact Ha|].
  cbn [Analysis.risk_level Analysis.safer_alternative].
  set (text := working_text E clause) in *.
  set (label := label_of E pred_id) in *.
  split.
  - rewrite risk_logic_decision.
    destruct (keyword_hit (risk_rules E) "High" (lower E text));
      destruct (keyword_hit (risk_rules E) "Medium" (lower E text));
      destruct (high_stakes_label label); cbn [orb];
      split; try (intros H; vm_compute in H; discriminate H);
      try (intros (H1 & H2 & H3); discriminate); auto.
  - intros Hlow. rewrite Hlow in Hh.
    destruct (hybrid_suggestion_cases E text label (py "Low") rule_summary
                (lower E text))
      as [[_ H] | [(Hr & _) | (Hr & _)]]; try discriminate Hr.
    rewrite H in Hh. injection Hh as <- <-. split; [reflexivity|].
    intros c Hin.
    apply in_app_or in Hin as [Hin | Hin].
    { unfold translate_calls in Hin.
      destruct (is_hindi clause); [|destruct Hin].
      destruct (str_contains uttardayi clause || str_contains harzana clause);
        [destruct Hin | destruct Hin as [<- | []]; reflexivity]. }
    apply in_app_or in Hin as [[<- | []] | Hin]; [reflexivity|].
    apply in_app_or in Hin as [Hin | Hin].
    { destruct Hls as [-> | ->]; [destruct Hin | destruct Hin as [<- | []]];
        reflexivity. }
    destruct Hin as [<- | []]. reflexivity.
Qed.

Lemma low_risk_exactly_witness :
  exists log r,
    analyze_single_clause
      (example_env example_labels example_rules Raised
         (Returned (1%N, (1 # 2)%Q)) Raised)
      (py "The fee is payable within thirty days of the invoice.")
    = (log, Returned r)
    /\ Analysis.risk_level r = py "Low"
    /\ Analysis.safer_alternative r = [].
Proof.
  destruct (low_risk_exactly
              (example_env example_labels example_rules Raised
                 (Returned (1%N, (1 # 2)%Q)) Raised)
              (py "The fee is payable within thirty days of the invoice.")
              1%N (1 # 2)%Q eq_refl)
    as (log & r & Ha & Hiff & Hlow).
  assert (Hr : Analysis.risk_level r = py "Low")
    by (apply Hiff; repeat split; vm_compute; reflexivity).
  exists log, r. split; [exact Ha|]. split; [exact Hr|].
  apply Hlow. exact Hr.
Defined.

(** X3: an empty string among the high-risk keywords is found in every
    text, so that every clause gets the risk level ["High"]. *)
Theorem empty_keyword_matches_every_clause (E : Env) (clause : pystr)
    (pred_id : N) (confidence : Q) (keywords : list pystr) :
  bert E (working_text E clause) = Returned (pred_id, confidence) ->
  risk_rules E !! "High" = Some keywords ->
  In [] keywords ->
  exists log r,
    analyze_single_clause E clause = (log, Returned r)
    /\ Analysis.risk_level r = py "High".
Proof.
  intros Hbert Hrules Hin.
  destruct (analyze_single_clause_returns E clause pred_id confidence Hbert)
    as (log_s & rule_summary & log_h & safer & _ & _ & _ & Ha).
  eexists _, _. split; [exact Ha|]. cbn [Analysis.risk_level].
  eapply risk_logic_high; eauto.
  destruct (lower E (working_text E clause)); reflexivity.
Qed.

Lemma empty_keyword_matches_every_clause_witness :
  exists log r,
    analyze_single_clause
      (example_env example_labels [("High", [py "indemnify"; []])] Raised
         (Returned (1%N, (1 # 2)%Q)) Raised)
      (py "The fee is payable within thirty days of the invoice.")
    = (log, Returned r)
    /\ Analysis.risk_level r = py "High".
Proof.
  apply (empty_keyword_matches_every_clause
           (example_env example_labels [("High", [py "indemnify"; []])] Raised
              (Returned (1%N, (1 # 2)%Q)) Raised)
           (py "The fee is payable within thirty days of the invoice.")
           1%N (1 # 2)%Q [py "indemnify"; []]).
  - reflexivity.
  - vm_compute. reflexivity.
  - right. left. reflexivity.
Defined.

(** ** Failures and calls of one analysis *)

Lemma analysis_raises_only_with_classifier_aux (E : Env) (clause : pystr) :
  result (analyze_single_clause E clause) = Raised ->
  bert E (working_text E clause) = Raised.
Proof.
  intros Hr.
  destruct (bert E (working_text E clause)) as [[pred_id confidence]|] eqn:Hbert;
    [|reflexivity].
  destruct (analyze_single_clause_returns E clause pred_id confidence Hbert)
    as (log_s & rule_summary & log_h & safer & _ & _ & _ & Ha).
  rewrite Ha in Hr. discriminate Hr.
Qed.

Lemma analysis_raises_only_with_classifier_back (E : Env) (clause : pystr) :
  bert E (working_text E clause) = Raised ->
  result (analyze_single_clause E clause) = Raised.
Proof.
  intros Hbert. rewrite (analyze_single_clause_raises E clause Hbert).
  reflexivity.
Qed.

(** X4: the analysis of a clause raises exactly when the classifier raises
    on the working text; a failure of the translator, the summarizer, the
    chat completion API or the explainer never makes it raise. *)
Theorem analysis_raises_only_with_classifier (E : Env) (clause : pystr) :
  result (analyze_single_clause E clause) = Raised
  <-> bert E (working_text E clause) = Raised.
Proof.
  destruct (bert E (working_text E clause)) as [[pred_id confidence]|] eqn:Hbert.
  - destruct (analyze_single_clause_returns E clause pred_id confidence Hbert)
      as (log_s & rule_summary & log_h & safer & _ & _ & _ & Ha).
    rewrite Ha. cbn [result snd]. split; discriminate.
  - rewrite (analyze_single_clause_raises E clause Hbert).
    cbn [result snd]. split; reflexivity.
Qed.





(** ** The summary *)

(** X6: for a clause that is not Hindi and has none of the topic words,
    the summary is the summarizer's answer to ["summarize: "] followed by
    the clause, and ["Summary unavailable."] when the summarizer raises. *)
Theorem summary_from_the_summarizer (E : Env) (clause : pystr)
    (pred_id : N) (confidence : Q) :
  bert E clause = Returned (pred_id, confidence) ->
  is_hindi clause = false ->
  summary_shortcut E (lower E clause) = false ->
  exists log r,
    analyze_single_clause E clause = (log, Returned r)
    /\ In (Summarize (py "summarize: " ++ clause)) log
    /\ Analysis.rule_summary r =
       match t5 E (py "summarize: " ++ clause) with
       | Returned summary => summary
       | Raised => py "Summary unavailable."
       end.
Proof.
  intros Hbert Hh Hshort.
  assert (Hw : working_text E clause = clause)
    by (unfold working_text; rewrite Hh; reflexivity).
  rewrite <- Hw in Hbert.
  destruct (analyze_single_clause_returns E clause pred_id confidence Hbert)
    as (log_s & rule_summary & log_h & safer & Hs & _ & _ & Ha).
  rewrite Hw in Hs, Ha. rewrite Hh in Hs.
  assert (Ht : generate_summary E false clause (lower E clause)
               = generate_t5_summary E clause).
  { unfold summary_shortcut in Hshort. unfold generate_summary.
    repeat match type of Hshort with
           | _ || _ = false => apply orb_false_iff in Hshort as [Hshort ?]
           end.
    repeat match goal with H : _ = false |- _ => rewrite H; clear H end.
    reflexivity. }
  rewrite Ht, generate_t5_summary_returns in Hs. injection Hs as <- <-.
  eexists _, _. split; [exact Ha|]. cbn [Analysis.rule_summary].
  split; [|reflexivity].
  apply in_or_app. right. right. left. reflexivity.
Qed.

Lemma summary_from_the_summarizer_witness :
  exists log r,
    analyze_single_clause
      (example_env_answering (Returned (1%N, (1 # 2)%Q)) Raised Raised)
      (py "The fee is payable within thirty days of the invoice.")
    = (log, Returned r)
    /\ Analysis.rule_summary r = py "Summary unavailable.".
Proof.
  destruct (summary_from_the_summarizer
              (example_env_answering (Returned (1%N, (1 # 2)%Q)) Raised Raised)
              (py "The fee is payable within thirty days of the invoice.")
              1%N (1 # 2)%Q eq_refl)
    as (log & r & Ha & _ & Hs).
  - vm_compute. reflexivity.
  - vm_compute. reflexivity.
  - exists log, r. split; [exact Ha | exact Hs].
Defined.

(** X7: for a clause with a Devanagari character the summary is the fixed
    notice about a translated Hindi clause and the summarizer is not
    called, whatever the translation says. *)
Theorem hindi_summary_is_the_notice (E : Env) (clause : pystr)
    (pred_id : N) (confidence : Q) :
  bert E (working_text E clause) = Returned (pred_id, confidence) ->
  is_hindi clause = true ->
  exists log r,
    analyze_single_clause E clause = (log, Returned r)
    /\ Analysis.rule_summary r =
       py "This Hindi clause (translated) outlines responsibilities. Please review the English translation carefully."
    /\ forall t, ~ In (Summarize t) log.
Proof.
  intros Hbert Hh.
  destruct (analyze_single_clause_returns E clause pred_id confidence Hbert)
    as (log_s & rule_summary & log_h & safer & Hs & _ & Hhy & Ha).
  rewrite Hh in Hs. cbn [generate_summary mret IO_ret] in Hs.
  injection Hs as <- <-.
  eexists _, _. split; [exact Ha|]. cbn [Analysis.rule_summary].
  split; [reflexivity|].
  intros t Hin.
  apply in_app_or in Hin as [Hin | Hin].
  { unfold translate_calls in Hin. rewrite Hh in Hin.
    destruct (str_contains uttardayi clause || str_contains harzana clause);
      [destruct Hin | destruct Hin as [[=] | []]]. }
  destruct Hin as [[=] | Hin]. cbn [app] in Hin.
  apply in_app_or in Hin as [Hin | [[=] | []]].
  assert (Hc : In (Summarize t)
                 (calls (hybrid_suggestion E (working_text E clause)
                           (label_of E pred_id)
                           (risk_logic (risk_rules E)
                              (lower E (working_text E clause))
                              (label_of E pred_id))
                           (py "This Hindi clause (translated) outlines responsibilities. Please review the English translation carefully.")
                           (lower E (working_text E clause)))))
    by (rewrite Hhy; exact Hin).
  apply hybrid_suggestion_calls in Hc as ([=] & _).
Qed.

Lemma hindi_summary_is_the_notice_witness :
  exists log r,
    analyze_single_clause
      (example_env example_labels example_rules
         (Returned (py "The supplier bears unlimited liability."))
         (Returned (1%N, (1 # 2)%Q)) Raised)
      [2351; 2361; 32; 2309; 2344; 2369; 2348; 2306; 2343]%N
    = (log, Returned r)
    /\ Analysis.rule_summary r =
       py "This Hindi clause (translated) outlines responsibilities. Please review the English translation carefully.".
Proof.
  destruct (hindi_summary_is_the_notice
              (example_env example_labels example_rules
                 (Returned (py "The supplier bears unlimited liability."))
                 (Returned (1%N, (1 # 2)%Q)) Raised)
              [2351; 2361; 32; 2309; 2344; 2369; 2348; 2306; 2343]%N
              1%N (1 # 2)%Q eq_refl eq_refl)
    as (log & r & Ha & Hs & _).
  exists log, r. split; [exact Ha | exact Hs].
Defined.

(** ** The clauses of a document *)

Section Lengths.
Implicit Types (s old : pystr) (drop : N -> bool).

Lemma replace_from_removes old k s :
  length (replace_from old [] k s) <= length s
  /\ forall ch, In ch (replace_from old [] k s) -> In ch s.
Proof.
  revert k; induction s as [|c s IH]; intros k;
    [simpl; split; [lia | easy]|].
  cbn [replace_from]. destruct k as [|k].
  - destruct (str_startswith (c :: s) old).
    + cbn [app]. destruct (IH (length old - 1)) as [Hl Hi].
      split; [simpl; lia | intros ch H; right; auto].
    + destruct (IH 0) as [Hl Hi].
      split; [simpl; lia |].
      intros ch [<- | H]; [left; reflexivity | right; auto].
  - destruct (IH k) as [Hl Hi].
    split; [simpl; lia | intros ch H; right; auto].
Qed.

Lemma str_replace_removes old s :
  old <> [] ->
  length (str_replace old [] s) <= length s
  /\ forall ch, In ch (str_replace old [] s) -> In ch s.
Proof.
  destruct old as [|p old]; [congruence|]. intros _.
  apply replace_from_removes.
Qed.

Lemma str_split_piece_of sep s w :
  In w (str_split sep s) ->
  length w <= length s /\ forall ch, In ch w -> In ch s.
Proof.
  revert w; induction s as [|c s IH]; intros w; simpl.
  - intros [<- | []]. split; [simpl; lia | easy].
  - destruct (c =? sep)%N.
    + intros [<- | H]; [split; [simpl; lia | easy]|].
      destruct (IH w H) as [Hl Hi]. split; [lia | auto].
    + destruct (str_split sep s) as [|w0 ws] eqn:Hs.
      * intros [<- | []]. split; [simpl; lia|].
        intros ch [<- | []]. left; reflexivity.
      * intros [<- | H].
        -- destruct (IH w0 (or_introl eq_refl)) as [Hl Hi].
           split; [simpl; lia|].
           intros ch [<- | Hc]; [left; reflexivity | right; auto].
        -- destruct (IH w (or_intror H)) as [Hl Hi]. split; [lia | auto].
Qed.

Lemma str_lstrip_length drop s : length (str_lstrip drop s) <= length s.
Proof.
  induction s as [|c s IH]; simpl; [lia|].
  destruct (drop c); simpl; lia.
Qed.

Lemma str_rstrip_length drop s : length (str_rstrip drop s) <= length s.
Proof.
  induction s as [|c s IH]; simpl; [lia|].
  destruct (str_rstrip drop s); [destruct (drop c)|]; simpl in *; lia.
Qed.

Lemma str_strip_length drop s : length (str_strip drop s) <= length s.
Proof.
  unfold str_strip.
  pose proof (str_rstrip_length drop (str_lstrip drop s)).
  pose proof (str_lstrip_length drop s). lia.
Qed.

End Lengths.

(** The candidates again, with what they take from the document. *)
Lemma processed_candidates_of raw_text c :
  In c (List.filter (fun c => 20 <? length c)
          (map strip (List.filter (fun c => truthy (strip c))
             (str_split 10
                (str_replace (py "[End of Document]") []
                   (str_replace (py "[Start of Document]") [] raw_text)))))) ->
  length c <= length raw_text /\ forall ch, In ch c -> In ch raw_text.
Proof.
  intros H. apply filter_In in H as [H _].
  apply in_map_iff in H as (w & <- & Hw).
  apply filter_In in Hw as [Hw _].
  apply str_split_piece_of in Hw as [Hl Hi].
  destruct (str_replace_removes (py "[End of Document]")
              (str_replace (py "[Start of Document]") [] raw_text))
    as [Hl2 Hi2]; [discriminate|].
  destruct (str_replace_removes (py "[Start of Document]") raw_text)
    as [Hl1 Hi1]; [discriminate|].
  pose proof (str_strip_length Py_UNICODE_ISSPACE w) as Hs.
  split; [unfold strip; lia|].
  intros ch Hc. apply Hi1, Hi2, Hi.
  apply str_strip_incl with Py_UNICODE_ISSPACE. exact Hc.
Qed.

(** X8: every clause that the segmentation of a document hands to the
    analysis is either the whole document as given or a stripped line of
    more than 20 characters without newline; it is never longer than the
    document and holds only characters of the document. *)
Theorem clauses_of_a_document (raw_text c : pystr) :
  In c (processed_clauses raw_text) ->
  (c = raw_text \/ 20 < length c /\ strip c = c /\ ~ In 10%N c)
  /\ length c <= length raw_text
  /\ forall ch, In ch c -> In ch raw_text.
Proof.
  intros Hin. unfold processed_clauses in Hin.
  match type of Hin with
  | In _ (match ?l with _ => _ end) => destruct l as [|c0 l0] eqn:Hl
  end.
  - destruct Hin as [<- | []]. split; [left; reflexivity|]. split; [lia | auto].
  - rewrite <- Hl in Hin. split.
    + right. apply processed_candidates in Hin as (Hnl & Hs & Hlen). auto.
    + apply processed_candidates_of. exact Hin.
Qed.

Lemma clauses_of_a_document_witness :
  20 < length (py "The Supplier shall deliver the goods within thirty days.")
  /\ strip (py "The Supplier shall deliver the goods within thirty days.")
     = py "The Supplier shall deliver the goods within thirty days.".
Proof.
  destruct (clauses_of_a_document
              (lines [ py "[Start of Document]";
                       py "  The Supplier shall deliver the goods within thirty days.  ";
                       py "short line";
                       py "[End of Document]" ])
              (py "The Supplier shall deliver the goods within thirty days."))
    as ([Heq | (Hlen & Hs & _)] & _).
  - vm_compute. left. reflexivity.
  - vm_compute in Heq. discriminate Heq.
  - split; assumption.
Defined.

(** X9: a document of at most 20 characters is analysed as one clause, as
    given: with its markers, its newlines and its surrounding space. *)
Theorem short_document_is_one_clause (raw_text : pystr) :
  length raw_text <= 20 ->
  processed_clauses raw_text = [raw_text].
Proof.
  intros Hlen. unfold processed_clauses.
  match goal with
  | |- match ?l with _ => _ end = _ => destruct l as [|c0 l0] eqn:Hl
  end; [reflexivity|].
  assert (Hin : In c0 (c0 :: l0)) by (left; reflexivity).
  rewrite <- Hl in Hin.
  pose proof (processed_candidates _ _ Hin) as (_ & _ & H20).
  pose proof (processed_candidates_of _ _ Hin) as (Hle & _). lia.
Qed.

Lemma short_document_is_one_clause_witness :
  processed_clauses (lines [py " Pay now. "; py "Thanks."])
  = [lines [py " Pay now. "; py "Thanks."]].
Proof.
  apply (short_document_is_one_clause
           (lines [py " Pay now. "; py "Thanks."])).
  vm_compute. lia.
Defined.

(** ** The route for documents *)

Lemma for_each_returns {A B : Type} (f : A -> IO B) (xs : list A) :
  (forall x, In x xs -> result (f x) <> Raised) ->
  exists ys,
    for_each f xs = (concat (map (fun x => calls (f x)) xs), Returned ys)
    /\ Forall2 (fun x y => result (f x) = Returned y) xs ys.
Proof.
  induction xs as [|x xs IH]; intros H.
  - exists []. split; [reflexivity | constructor].
  - destruct IH as (ys & Hf & Hall); [intros x' Hx; apply H; right; exact Hx|].
    destruct (f x) as [log [y|]] eqn:Hx.
    + exists (y :: ys). split.
      * cbn [for_each mbind IO_bind]. rewrite Hx, Hf.
        cbn [mbind IO_bind mret IO_ret map concat calls fst].
        rewrite Hx. cbn [fst]. rewrite app_nil_r. reflexivity.
      * constructor; [rewrite Hx; reflexivity | exact Hall].
    + exfalso. apply (H x); [left; reflexivity|]. rewrite Hx. reflexivity.
Qed.

Lemma for_each_raises {A B : Type} (f : A -> IO B) (xs : list A) :
  result (for_each f xs) = Raised <->
  exists x, In x xs /\ result (f x) = Raised.
Proof.
  induction xs as [|x xs IH].
  - split; [discriminate | intros (x & [] & _)].
  - cbn [for_each mbind IO_bind].
    destruct (f x) as [log [y|]] eqn:Hx.
    + destruct (for_each f xs) as [log' [ys|]] eqn:Hf;
        cbn [mbind IO_bind mret IO_ret result snd] in *.
      * split; [discriminate|].
        intros (x' & [<- | Hin] & Hr).
        -- rewrite Hx in Hr. discriminate Hr.
        -- destruct IH as [_ IH].
           assert (Hc : Returned ys = @Raised (list B)) by (apply IH; eauto).
           discriminate Hc.
      * split; [|reflexivity]. intros _.
        destruct IH as [IH _]. destruct (IH eq_refl) as (x' & Hin & Hr).
        exists x'. split; [right; exact Hin | exact Hr].
    + cbn [result snd]. split; [|reflexivity]. intros _.
      exists x. split; [left; reflexivity | rewrite Hx; reflexivity].
Qed.

(** X10: for a non-empty document on whose clauses the classifier answers,
    [analyze_document] answers 200 with one record per clause of the
    segmentation, in order; each record is the one the clause gets when
    analysed alone, its [text] is the clause, and the calls made are those
    of the single analyses, one clause after the other. *)
Theorem document_is_analysed_clause_by_clause (E : Env) (raw_text : pystr) :
  raw_text <> [] ->
  (forall c, In c (processed_clauses raw_text) ->
             bert E (working_text E c) <> Raised) ->
  exists results_list,
    analyze_document E (Some raw_text) =
    (concat (map (fun c => calls (analyze_single_clause E c))
               (processed_clauses raw_text)),
     Returned (AnalysisResults results_list, 200%Z))
    /\ Forall2 (fun c r => result (analyze_single_clause E c) = Returned r)
         (processed_clauses raw_text) results_list
    /\ map Analysis.text results_list = processed_clauses raw_text.
Proof.
  intros Hne Hbert.
  destruct (for_each_returns (analyze_single_clause E)
              (processed_clauses raw_text)) as (rs & Hf & Hall).
  { intros c Hc Hr. apply (Hbert c Hc).
    apply analysis_raises_only_with_classifier_aux. exact Hr. }
  exists rs. split; [|split; [exact Hall|]].
  - unfold analyze_document. cbn [default from_option id].
    destruct raw_text as [|ch raw_text]; [congruence|]. cbn [truthy negb].
    rewrite Hf. cbn [mbind IO_bind mret IO_ret]. rewrite app_nil_r. reflexivity.
  - clear Hf Hbert. induction Hall as [|c r cs rs' Hr _ IH]; [reflexivity|].
    cbn [map]. rewrite IH. f_equal.
    destruct (bert E (working_text E c)) as [[pred_id confidence]|] eqn:Hb.
    + destruct (analyze_single_clause_returns E c pred_id confidence Hb)
        as (log_s & rule_summary & log_h & safer & _ & _ & _ & Ha).
      rewrite Ha in Hr. cbn [result snd] in Hr. injection Hr as <-. reflexivity.
    + rewrite (analyze_single_clause_raises E c Hb) in Hr. discriminate Hr.
Qed.

Lemma document_is_analysed_clause_by_clause_witness :
  exists results_list,
    result (analyze_document
              (example_env example_labels example_rules Raised
                 (Returned (1%N, (1 # 2)%Q)) Raised)
              (Some (lines [ py "The Client shall indemnify the Provider.";
                             py "short line";
                             py "The fee is payable within thirty days." ])))
    = Returned (AnalysisResults results_list, 200%Z)
    /\ map Analysis.text results_list =
       [ py "The Client shall indemnify the Provider.";
         py "The fee is payable within thirty days." ].
Proof.
  destruct (document_is_analysed_clause_by_clause
              (example_env example_labels example_rules Raised
                 (Returned (1%N, (1 # 2)%Q)) Raised)
              (lines [ py "The Client shall indemnify the Provider.";
                       py "short line";
                       py "The fee is payable within thirty days." ]))
    as (rs & Ha & _ & Ht).
  - vm_compute. discriminate.
  - intros c _. cbn [bert example_env]. discriminate.
  - exists rs. rewrite Ha. split; [reflexivity|]. rewrite Ht.
    vm_compute. reflexivity.
Defined.

(** X11: for a non-empty document, [analyze_document] raises exactly when
    the classifier raises on the working text of one of its clauses; there
    is then no partial list of results. *)
Theorem document_fails_as_a_whole (E : Env) (raw_text : pystr) :
  raw_text <> [] ->
  result (analyze_document E (Some raw_text)) = Raised
  <-> exists c, In c (processed_clauses raw_text)
                /\ bert E (working_text E c) = Raised.
Proof.
  intros Hne. unfold analyze_document. cbn [default from_option id].
  destruct raw_text as [|ch raw_text]; [congruence|]. cbn [truthy negb].
  set (clauses := processed_clauses (ch :: raw_text)).
  pose proof (for_each_raises (analyze_single_clause E) clauses) as Hf.
  destruct (for_each (analyze_single_clause E) clauses) as [log [rs|]] eqn:He;
    cbn [mbind IO_bind mret IO_ret result snd] in *.
  - split; [discriminate|]. intros (c & Hin & Hb).
    destruct Hf as [_ Hf].
    assert (Hc : Returned rs = @Raised (list Analysis.t)).
    { apply Hf. exists c. split; [exact Hin|].
      apply analysis_raises_only_with_classifier_back. exact Hb. }
    discriminate Hc.
  - split; [|reflexivity]. intros _.
    destruct Hf as [Hf _]. destruct (Hf eq_refl) as (c & Hin & Hr).
    exists c. split; [exact Hin|].
    apply analysis_raises_only_with_classifier_aux. exact Hr.
Qed.

Lemma document_fails_as_a_whole_witness :
  result (analyze_document
            (example_env example_labels example_rules Raised Raised Raised)
            (Some (py "The Client shall indemnify the Provider.")))
  = Raised.
Proof.
  apply (document_fails_as_a_whole
           (example_env example_labels example_rules Raised Raised Raised)
           (py "The Client shall indemnify the Provider.")).
  - vm_compute. discriminate.
  - exists (py "The Client shall indemnify the Provider.").
    split; [vm_compute; left; reflexivity | reflexivity].
Defined.

(** ** The answer of the chat completion API *)

Lemma remove_prefix_keeps_stripped (E : Env) (s prefix : pystr) :
  strip s = s -> strip (remove_prefix E s prefix) = remove_prefix E s prefix.
Proof.
  intros Hs. unfold remove_prefix.
  destruct (str_startswith (lower E s) (lower E prefix));
    [apply strip_idem | exact Hs].
Qed.

Lemma remove_prefixes_keep_stripped (E : Env) (prefixes : list pystr) (s : pystr) :
  strip s = s ->
  strip (fold_left (remove_prefix E) prefixes s)
  = fold_left (remove_prefix E) prefixes s.
Proof.
  revert s; induction prefixes as [|p prefixes IH]; intros s Hs; [exact Hs|].
  cbn [fold_left]. apply IH. apply remove_prefix_keeps_stripped. exact Hs.
Qed.

Lemma read_response_some (E : Env) (response : Response) (s : pystr) :
  result (read_response E response) = Returned (Some s) ->
  status_code response = 200%Z
  /\ (exists data content rest,
        json response = Returned data
        /\ choices data = Some (Returned content :: rest))
  /\ strip s = s /\ length s <= 300.
Proof.
  unfold read_response.
  destruct (status_code response =? 200)%Z eqn:Hst; [|discriminate].
  apply Z.eqb_eq in Hst.
  destruct (json response) as [data|]; [|discriminate].
  unfold eval. cbn [mbind IO_bind].
  destruct (choices data) as [[|[content|] rest]|] eqn:Hch; try discriminate.
  cbn [mbind IO_bind].
  match goal with
  | |- context [300 <? length ?g] => set (cleaned := g)
  end.
  destruct (300 <? length cleaned) eqn:Hlen; cbn [result snd mret IO_ret];
    [discriminate|].
  intros [= <-]. apply Nat.ltb_ge in Hlen.
  split; [exact Hst|]. split; [eauto|]. split; [|exact Hlen].
  apply remove_prefixes_keep_stripped, strip_idem.
Qed.

(** X12: [generate_gemini_safer_alternative] posts one request and never
    raises.  It returns a text only if the request returned with status
    200, a body that parses and a first choice with content; the text has
    no white space at either end and at most 300 characters.  Otherwise
    it returns [None]. *)
Theorem gemini_answer_is_clean (E : Env)
    (clause_text clause_label risk_level rule_summary ml_suggestion : pystr) :
  exists suggestion,
    generate_gemini_safer_alternative E clause_text clause_label risk_level
      rule_summary ml_suggestion
    = ([ChatCompletion (chat_payload clause_text clause_label risk_level
                          rule_summary ml_suggestion)],
       Returned suggestion)
    /\ forall s, suggestion = Some s ->
         strip s = s /\ length s <= 300
         /\ exists response data content rest,
              requests_post E (chat_payload clause_text clause_label risk_level
                                 rule_summary ml_suggestion)
              = Returned response
              /\ status_code response = 200%Z
              /\ json response = Returned data
              /\ choices data = Some (Returned content :: rest).
Proof.
  unfold generate_gemini_safer_alternative.
  set (payload := chat_payload _ _ _ _ _). cbv zeta. unfold external.
  destruct (requests_post E payload) as [response|] eqn:Hpost.
  - destruct (read_response_silent E response) as [r Hr].
    cbn [mbind IO_bind]. rewrite Hr.
    destruct r as [suggestion|].
    + exists suggestion. split; [reflexivity|]. intros s ->.
      assert (Hres : result (read_response E response) = Returned (Some s))
        by (rewrite Hr; reflexivity).
      apply read_response_some in Hres
        as (Hst & (data & content & rest & Hj & Hc) & Hs & Hl).
      split; [exact Hs|]. split; [exact Hl|].
      exists response, data, content, rest. auto.
    + exists None. split; [reflexivity | discriminate].
  - exists None. split; [reflexivity | discriminate].
Qed.

Example gemini_answer_cleaned :
  result (generate_gemini_safer_alternative
            (example_env example_labels example_rules Raised Raised
               (answer_with (py "  'Refined clause: The parties shall first consult each other.'  ")))
            (py "clause") (py "Payment Terms") (py "High") [] SAFE_GENERAL)
  = Returned (Some (py "The parties shall first consult each other.")).
Proof. vm_compute. reflexivity. Qed.

Lemma chat_payload_for_generic (text label risk_level rule_summary : pystr) :
  chat_payload text label risk_level rule_summary SAFE_GENERAL =
  {| model := GEMINI_MODEL;
     messages := [ (py "system", refine_system_prompt);
                   (py "user",
                    refine_user_prompt text label risk_level SAFE_GENERAL) ];
     temperature := (1 # 2)%Q;
     max_tokens := 150%Z |}.
Proof. reflexivity. Qed.

(** X13: every request that an analysis sends to the chat completion API
    is in refine mode: the system prompt asks to refine a template, the
    user prompt quotes the working text, the label, the risk ["High"] and
    the generic template, at most 150 tokens are asked for and the
    temperature is 1/2.  The mode that generates a clause afresh, with
    200 tokens, is never used. *)
Theorem chat_requests_refine_the_generic_template (E : Env) (clause : pystr)
    (payload : ChatPayload) :
  In (ChatCompletion payload) (calls (analyze_single_clause E clause)) ->
  exists pred_id confidence,
    bert E (working_text E clause) = Returned (pred_id, confidence)
    /\ payload =
       {| model := GEMINI_MODEL;
          messages := [ (py "system", refine_system_prompt);
                        (py "user",
                         refine_user_prompt (working_text E clause)
                           (label_of E pred_id) (py "High") SAFE_GENERAL) ];
          temperature := (1 # 2)%Q;
          max_tokens := 150%Z |}.
Proof.
  intros Hin.
  destruct (bert E (working_text E clause)) as [[pred_id confidence]|] eqn:Hbert.
  - exists pred_id, confidence. split; [reflexivity|].
    destruct (analyze_single_clause_returns E clause pred_id confidence Hbert)
      as (log_s & rule_summary & log_h & safer & _ & Hls & Hh & Ha).
    rewrite Ha in Hin. cbn [calls fst] in Hin.
    apply in_app_or in Hin as [Hin | Hin].
    { unfold translate_calls in Hin.
      destruct (is_hindi clause); [|destruct Hin].
      destruct (str_contains uttardayi clause || str_contains harzana clause);
        [destruct Hin | destruct Hin as [[=] | []]]. }
    apply in_app_or in Hin as [[[=] | []] | Hin].
    apply in_app_or in Hin as [Hin | Hin].
    { destruct Hls as [-> | ->]; [destruct Hin | destruct Hin as [[=] | []]]. }
    apply in_app_or in Hin as [Hin | [[=] | []]].
    assert (Hc : In (ChatCompletion payload)
                   (calls (hybrid_suggestion E (working_text E clause)
                             (label_of E pred_id)
                             (risk_logic (risk_rules E)
                                (lower E (working_text E clause))
                                (label_of E pred_id))
                             rule_summary (lower E (working_text E clause)))))
      by (rewrite Hh; exact Hin).
    apply hybrid_suggestion_calls in Hc as (Hp & Hrisk & _ & _).
    rewrite high_or_critical in Hrisk by apply risk_logic_values.
    apply str_eqb_eq in Hrisk. rewrite Hrisk in Hp.
    injection Hp as ->. apply chat_payload_for_generic.
  - rewrite (analyze_single_clause_raises E clause Hbert) in Hin.
    cbn [calls fst] in Hin.
    apply in_app_or in Hin as [Hin | [[=] | []]].
    unfold translate_calls in Hin.
    destruct (is_hindi clause); [|destruct Hin].
    destruct (str_contains uttardayi clause || str_contains harzana clause);
      [destruct Hin | destruct Hin as [[=] | []]].
Qed.

Lemma chat_requests_refine_the_generic_template_witness :
  max_tokens
    (chat_payload (py "The Client shall indemnify the Provider.")
       (py "Payment Terms") (py "High") (py "Summary unavailable.")
       SAFE_GENERAL)
  = 150%Z.
Proof.
  destruct (chat_requests_refine_the_generic_template
              (example_env example_labels example_rules Raised
                 (Returned (1%N, (1 # 2)%Q)) Raised)
              (py "The Client shall indemnify the Provider.")
              (chat_payload (py "The Client shall indemnify the Provider.")
                 (py "Payment Terms") (py "High")
                 (py "Summary unavailable.") SAFE_GENERAL))
    as (pred_id & confidence & _ & Hp).
  - vm_compute. do 2 right. left. reflexivity.
  - rewrite Hp. reflexivity.
Defined.

(** ** Templates for the common clause types *)

Lemma str_contains_trans (a b s : pystr) :
  str_contains a b = true -> str_contains b s = true -> str_contains a s = true.
Proof.
  intros Hab Hbs.
  apply str_contains_spec in Hab as (p1 & q1 & ->).
  apply str_contains_spec in Hbs as (p2 & q2 & ->).
  apply str_contains_spec. exists (p2 ++ p1), (q1 ++ q2).
  rewrite <- !app_assoc. reflexivity.
Qed.

Lemma typed_template_is_not_generic (s : pystr) :
  In s typed_templates -> s <> SAFE_GENERAL.
Proof.
  unfold typed_templates. cbn [In].
  intros H; repeat (destruct H as [<- | H]; [vm_compute; discriminate|]).
  destruct H.
Qed.

Lemma ml_template_for_common_label (E : Env) (label lower_text common : pystr) :
  In common [ py "force majeure"; py "liability"; py "termination";
              py "indemnity" ] ->
  str_contains common (label_lower E label) = true ->
  In (ml_template E label lower_text) typed_templates.
Proof.
  intros Hin Hc. unfold ml_template, typed_templates.
  set (ll := label_lower E label) in *.
  cbn [In] in Hin. destruct Hin as [<- | [<- | [<- | [<- | []]]]].
  - assert (H1 : has "force" ll = true)
      by (eapply str_contains_trans; [|exact Hc]; reflexivity).
    assert (H2 : has "majeure" ll = true)
      by (eapply str_contains_trans; [|exact Hc]; reflexivity).
    rewrite H1, H2. left. reflexivity.
  - change (has "liability" ll = true) in Hc. rewrite Hc.
    destruct (has "force" ll && has "majeure" ll); [left; reflexivity|].
    destruct (has "breach" ll && (has "penalty" ll || has "penalties" ll));
      cbn [In]; auto.
  - change (has "termination" ll = true) in Hc. rewrite Hc.
    destruct (has "force" ll && has "majeure" ll); [left; reflexivity|].
    destruct (has "breach" ll && (has "penalty" ll || has "penalties" ll));
      [cbn [In]; auto|].
    destruct (has "liability" ll); cbn [In]; auto.
  - change (has "indemnity" ll = true) in Hc. rewrite Hc. cbn [orb].
    destruct (has "force" ll && has "majeure" ll); [left; reflexivity|].
    destruct (has "breach" ll && (has "penalty" ll || has "penalties" ll));
      [cbn [In]; auto|].
    destruct (has "liability" ll); [cbn [In]; auto|].
    destruct (has "termination" ll); cbn [In]; auto 6.
Qed.

(** X14: when the lower-cased label contains force majeure, liability,
    termination or indemnity and the risk is high, the safer alternative
    is one of the five templates for these types, chosen by the label
    alone: never the generic template, and never a text of the chat
    completion API. *)
Theorem common_label_gets_its_template (E : Env) (clause : pystr)
    (pred_id : N) (confidence : Q) (common : pystr) :
  bert E (working_text E clause) = Returned (pred_id, confidence) ->
  In common [ py "force majeure"; py "liability"; py "termination";
              py "indemnity" ] ->
  str_contains common (label_lower E (label_of E pred_id)) = true ->
  exists log r,
    analyze_single_clause E clause = (log, Returned r)
    /\ (Analysis.risk_level r = py "High" ->
        Analysis.safer_alternative r
        = ml_template E (label_of E pred_id) (lower E (working_text E clause))
        /\ In (Analysis.safer_alternative r) typed_templates
        /\ Analysis.safer_alternative r <> SAFE_GENERAL)
    /\ forall c, In c log -> is_chat_completion c = false.
Proof.
  intros Hbert Hin Hc.
  assert (Hcommon : is_common_type E (label_of E pred_id) = true).
  { unfold is_common_type. apply existsb_exists. exists common.
    split; [|exact Hc]. unfold common_clause_types. cbn [In] in *.
    destruct Hin as [<- | [<- | [<- | [<- | []]]]]; auto 6. }
  pose proof (common_type_never_refined E clause pred_id confidence Hbert Hcommon)
    as Hno.
  destruct (analyze_single_clause_returns E clause pred_id confidence Hbert)
    as (log_s & rule_summary & log_h & safer & _ & _ & Hh & Ha).
  rewrite Ha in Hno. cbn [calls fst] in Hno.
  eexists _, _. split; [exact Ha|]. split; [|exact Hno].
  cbn [Analysis.risk_level Analysis.safer_alternative]. intros Hr.
  rewrite Hr in Hh.
  destruct (hybrid_suggestion_cases E (working_text E clause)
              (label_of E pred_id) (py "High") rule_summary
              (lower E (working_text E clause)))
    as [[Hg _] | [(_ & _ & H) | (_ & Hnc & _)]].
  - discriminate Hg.
  - rewrite H in Hh. injection Hh as <- <-.
    pose proof (ml_template_for_common_label E (label_of E pred_id)
                  (lower E (working_text E clause)) common Hin Hc) as Ht.
    split; [reflexivity|]. split; [exact Ht|].
    apply typed_template_is_not_generic. exact Ht.
  - rewrite Hnc in Hcommon. discriminate.
Qed.

Lemma common_label_gets_its_template_witness :
  exists log r,
    analyze_single_clause
      (example_env example_labels example_rules Raised
         (Returned (0%N, (9 # 10)%Q)) Raised)
      (py "The fee is payable within thirty days of the invoice.")
    = (log, Returned r)
    /\ Analysis.safer_alternative r = SAFE_LIABILITY.
Proof.
  destruct (common_label_gets_its_template
              (example_env example_labels example_rules Raised
                 (Returned (0%N, (9 # 10)%Q)) Raised)
              (py "The fee is payable within thirty days of the invoice.")
              0%N (9 # 10)%Q (py "liability") eq_refl)
    as (log & r & Ha & Hs & _).
  - right. left. reflexivity.
  - vm_compute. reflexivity.
  - exists log, r. split; [exact Ha|].
    vm_compute in Ha. injection Ha as <- <-. vm_compute. reflexivity.
Defined.

(** A label that is only "Breach" is of a common type too, but no
    template is keyed to it alone: the generic template is returned
    unrefined. *)
Example breach_label_keeps_generic_template :
  let E := example_env [(0%N, py "Breach")] example_rules Raised
             (Returned (0%N, (1 # 2)%Q))
             (answer_with (py "The parties shall first consult each other.")) in
  match analyze_single_clause E (py "The Client shall indemnify the Provider.") with
  | (log, Returned r) =>
      Analysis.safer_alternative r = SAFE_GENERAL
      /\ existsb is_chat_completion log = false
  | _ => False
  end.
Proof. vm_compute. split; reflexivity. Qed.

(** ** The explanation *)

Lemma round_3_close (x : Q) :
  (x - (1 # 2000) <= round x 3 /\ round x 3 <= x + (1 # 2000))%Q.
Proof.
  unfold round.
  change (10 ^ Z.of_nat 3)%Z with 1000%Z.
  change (Z.to_pos 1000) with 1000%positive.
  destruct (round_half_even_close (x * inject_Z 1000)) as [Hlo Hhi].
  set (m := round_half_even (x * inject_Z 1000)) in *.
  destruct x as [n d].
  unfold Qle, Qminus, Qplus, Qopp, Qmult, inject_Z in *. cbn [Qnum Qden] in *.
  rewrite ?Pos2Z.inj_mul in *.
  assert (Hd : (0 < Zpos d)%Z) by reflexivity. split; nia.
Qed.

(** X15: the explanation of a returned analysis lists the explainer's
    words in the explainer's order, each weight rounded to a multiple of
    1/1000 at most 1/2000 away; it is the empty list when the explainer
    raises. *)
Theorem explanation_rounds_the_weights (E : Env) (clause : pystr)
    (pred_id : N) (confidence : Q) :
  bert E (working_text E clause) = Returned (pred_id, confidence) ->
  exists log r,
    analyze_single_clause E clause = (log, Returned r)
    /\ match explain_instance E (working_text E clause) pred_id with
       | Returned lime_list =>
           map fst (Analysis.lime_explanation r) = map fst lime_list
           /\ Forall2 (fun given rounded =>
                         Qden (snd rounded) = 1000%positive
                         /\ (snd given - (1 # 2000) <= snd rounded)%Q
                         /\ (snd rounded <= snd given + (1 # 2000))%Q)
                lime_list (Analysis.lime_explanation r)
       | Raised => Analysis.lime_explanation r = []
       end.
Proof.
  intros Hbert.
  destruct (analyze_single_clause_returns E clause pred_id confidence Hbert)
    as (log_s & rule_summary & log_h & safer & _ & _ & _ & Ha).
  eexists _, _. split; [exact Ha|]. cbn [Analysis.lime_explanation].
  clear Ha.
  destruct (explain_instance E (working_text E clause) pred_id)
    as [lime_list|]; [|reflexivity].
  split.
  - induction lime_list as [|[word weight] l IH]; [reflexivity|].
    cbn [map fst]. rewrite IH. reflexivity.
  - induction lime_list as [|[word weight] l IH]; [constructor|].
    cbn [map]. constructor; [|exact IH]. cbn [snd].
    split; [reflexivity|]. apply round_3_close.
Qed.

Lemma explanation_rounds_the_weights_witness :
  exists log r,
    analyze_single_clause
      (example_env_answering (Returned (1%N, (1 # 2)%Q)) Raised
         (Returned [(py "indemnify", (1 # 3)%Q); (py "Client", (-1 # 16)%Q)]))
      (py "The Client shall indemnify the Provider.")
    = (log, Returned r)
    /\ Analysis.lime_explanation r
       = [(py "indemnify", (333 # 1000)%Q); (py "Client", (-62 # 1000)%Q)].
Proof.
  destruct (explanation_rounds_the_weights
              (example_env_answering (Returned (1%N, (1 # 2)%Q)) Raised
                 (Returned [(py "indemnify", (1 # 3)%Q);
                            (py "Client", (-1 # 16)%Q)]))
              (py "The Client shall indemnify the Provider.")
              1%N (1 # 2)%Q eq_refl) as (log & r & Ha & _).
  exists log, r. split; [exact Ha|].
  vm_compute in Ha. injection Ha as <- <-. reflexivity.
Defined.

(** ** Uploading a PDF *)

Lemma read_pages_done (texts : list pystr) (text : pystr) :
  read_pages (map Done texts) text = Done (text ++ concat texts).
Proof.
  revert text; induction texts as [|t texts IH]; intros text; cbn [map read_pages concat].
  - rewrite app_nil_r. reflexivity.
  - rewrite IH, <- app_assoc. reflexivity.
Qed.

(** A document reads page by page up to its first failing page. *)
Lemma read_pages_cases (doc : list (attempt pystr)) (text : pystr) :
  (exists texts, doc = map Done texts
                 /\ read_pages doc text = Done (text ++ concat texts))
  \/ (exists texts message rest,
        doc = map Done texts ++ Failed message :: rest
        /\ read_pages doc text = Failed message).
Proof.
  revert text; induction doc as [|page doc IH]; intros text.
  - left. exists []. split; [reflexivity|]. cbn. rewrite app_nil_r. reflexivity.
  - destruct page as [t | message].
    + cbn [read_pages].
      destruct (IH (text ++ t)) as [(texts & -> & Hr) | (texts & m & rest & -> & Hr)].
      * left. exists (t :: texts). split; [reflexivity|].
        rewrite Hr. cbn [concat]. rewrite <- app_assoc. reflexivity.
      * right. exists (t :: texts), m, rest. split; [reflexivity | exact Hr].
    + right. exists [], message, doc. split; reflexivity.
Qed.

(** X16: [upload_pdf] never raises and answers in one of three ways: 400
    when the request has no file; 200 with the first 5000 characters of
    the pages' text when the document opens and every page reads; 500
    with the message of the first failure (opening, or the first page
    that fails) and no text otherwise. *)
Theorem upload_pdf_answers
    (fitz_open : list Byte.byte -> attempt (list (attempt pystr)))
    (file : option (list Byte.byte)) :
  (file = None
   /\ upload_pdf fitz_open file = (PdfError (py "No file uploaded"), 400%Z))
  \/ (exists stream texts,
        file = Some stream /\ fitz_open stream = Done (map Done texts)
        /\ upload_pdf fitz_open file
           = (ExtractedText (take 5000 (concat texts)), 200%Z))
  \/ (exists stream message,
        file = Some stream
        /\ (fitz_open stream = Failed message
            \/ exists texts rest,
                 fitz_open stream
                 = Done (map Done texts ++ Failed message :: rest))
        /\ upload_pdf fitz_open file = (PdfError message, 500%Z)).
Proof.
  destruct file as [stream|]; [|left; split; reflexivity]. right.
  unfold upload_pdf.
  destruct (fitz_open stream) as [doc | message] eqn:Hopen.
  - destruct (read_pages_cases doc [])
      as [(texts & -> & Hr) | (texts & m & rest & -> & Hr)]; rewrite Hr.
    + left. exists stream, texts. repeat split. exact Hopen.
    + right. exists stream, m. split; [reflexivity|].
      split; [right; eauto | reflexivity].
  - right. exists stream, message. split; [reflexivity|].
    split; [left; exact Hopen | reflexivity].
Qed.

(** X17: the text returned for a PDF whose pages all read is a prefix of
    the pages' text in page order, of at most 5000 characters; a document
    with at most 5000 characters of text comes back whole. *)
Theorem extracted_text_is_truncated
    (fitz_open : list Byte.byte -> attempt (list (attempt pystr)))
    (stream : list Byte.byte) (texts : list pystr) :
  fitz_open stream = Done (map Done texts) ->
  exists extracted_text rest,
    upload_pdf fitz_open (Some stream) = (ExtractedText extracted_text, 200%Z)
    /\ concat texts = extracted_text ++ rest
    /\ length extracted_text = Nat.min 5000 (length (concat texts))
    /\ (length (concat texts) <= 5000 -> extracted_text = concat texts).
Proof.
  intros Hopen. unfold upload_pdf. rewrite Hopen, read_pages_done.
  cbn [app].
  exists (take 5000 (concat texts)), (drop 5000 (concat texts)).
  split; [reflexivity|]. split; [symmetry; apply take_drop|].
  split; [apply length_take|]. intros Hle. apply take_ge. exact Hle.
Qed.

Lemma extracted_text_is_truncated_witness :
  exists extracted_text rest,
    upload_pdf (fun _ => Done [Done (py "Page one. "); Done (py "Page two.")])
      (Some [])
    = (ExtractedText extracted_text, 200%Z)
    /\ py "Page one. Page two." = extracted_text ++ rest
    /\ length extracted_text = 19.
Proof.
  destruct (extracted_text_is_truncated
              (fun _ => Done [Done (py "Page one. "); Done (py "Page two.")])
              [] [py "Page one. "; py "Page two."] eq_refl)
    as (t & rest & Hu & Hc & Hl & _).
  exists t, rest. split; [exact Hu|]. split; [exact Hc | exact Hl].
Defined.

(** ** Searching judgments *)


Lemma list_getitem_beyond {A : Type} (l : list A) (i : Z) :
  (Z.of_nat (length l) <= i)%Z -> list_getitem l i = Raised.
Proof.
  intros Hn. unfold list_getitem.
  assert (Hneg : (i <? 0)%Z = false) by (apply Z.ltb_ge; lia).
  rewrite Hneg.
  assert (Hb : (i <? Z.of_nat (length l))%Z = false) by (apply Z.ltb_ge; exact Hn).
  rewrite Hb, andb_false_r. reflexivity.
Qed.










(** X20: [search_judgment] answers with status 500 and an error body
    exactly when the index is not loaded or the embedding model is not
    loaded; the index is tested first, and without it neither the
    embedding nor the search is attempted. *)
Theorem search_unavailable_exactly (J : Judgments)
    (clause_text : option pystr) (top_k : option Z) :
  ((exists body, search_judgment J clause_text top_k = Returned (body, 500%Z))
   <-> faiss_index J = None \/ judge_model J = None)
  /\ (faiss_index J = None ->
      search_judgment J clause_text top_k
      = Returned (SearchError (py "FAISS Index not loaded"), 500%Z))
  /\ (faiss_index J <> None -> judge_model J = None ->
      search_judgment J clause_text top_k
      = Returned (SearchError (py "Embedding model failed"), 500%Z)).
Proof.
  unfold search_judgment, get_judgment_embedding.
  destruct (faiss_index J) as [search|].
  - destruct (judge_model J) as [embed|].
    + split; [|split; [discriminate | discriminate]].
      split; [|intros [[=] | [=]]].
      intros [body H]. exfalso. cbv zeta in H.
      destruct (embed (default [] clause_text)) as [v|]; [|discriminate H].
      destruct (search v (default 3%Z top_k)) as [hits|]; [|discriminate H].
      destruct (collect_results (faiss_meta J) hits []); discriminate H.
    + split; [|split; [discriminate | reflexivity]].
      split; [intros _; right; reflexivity | intros _; eexists; reflexivity].
  - split; [|split; [reflexivity | congruence]].
    split; [intros _; left; reflexivity | intros _; eexists; reflexivity].
Qed.

Lemma collect_results_stale (meta_list : list (gmap string jvalue))
    (hits : list (Z * Q)) (results : list JudgmentResult) :
  (exists hit, In hit hits /\ (Z.of_nat (length meta_list) <= fst hit)%Z) ->
  collect_results meta_list hits results = Raised.
Proof.
  revert results; induction hits as [|[idx distance] hits IH];
    intros results (hit & Hin & Hbig); [destruct Hin|].
  cbn [collect_results].
  destruct Hin as [<- | Hin].
  - cbn [fst] in Hbig.
    assert (Hp : (idx =? -1)%Z = false) by (apply Z.eqb_neq; lia).
    rewrite Hp, (list_getitem_beyond meta_list idx Hbig). reflexivity.
  - destruct (idx =? -1)%Z; [apply IH; eauto|].
    destruct (list_getitem meta_list idx) as [meta|]; [|reflexivity].
    destruct (judgment_result meta distance); [apply IH; eauto | reflexivity].
Qed.

(** X21: if the search returns a hit whose id is beyond the rows of the
    metadata (index and metadata out of step), [search_judgment] raises:
    there is no partial list of results. *)
Theorem stale_metadata_fails_the_search (J : Judgments)
    (clause_text : option pystr) (top_k : option Z)
    (search : list Q -> Z -> outcome (list (Z * Q)))
    (embed : pystr -> outcome (list Q))
    (query_vector : list Q) (hits : list (Z * Q)) (hit : Z * Q) :
  faiss_index J = Some search ->
  judge_model J = Some embed ->
  embed (default [] clause_text) = Returned query_vector ->
  search query_vector (default 3%Z top_k) = Returned hits ->
  In hit hits ->
  (Z.of_nat (length (faiss_meta J)) <= fst hit)%Z ->
  search_judgment J clause_text top_k = Raised.
Proof.
  intros Hindex Hmodel Hembed Hsearch Hin Hbig.
  unfold search_judgment, get_judgment_embedding.
  rewrite Hindex, Hmodel. cbv zeta. rewrite Hembed, Hsearch.
  rewrite (collect_results_stale (faiss_meta J) hits []); [reflexivity|].
  exists hit. split; assumption.
Qed.

Lemma stale_metadata_fails_the_search_witness :
  search_judgment
    {| judge_model := judge_model example_judgments;
       faiss_index := Some (fun _ _ => Returned [(0%Z, 0%Q); (2%Z, (1 # 1)%Q)]);
       faiss_meta := faiss_meta example_judgments |}
    None (Some 2%Z)
  = Raised.
Proof.
  apply (stale_metadata_fails_the_search
           {| judge_model := judge_model example_judgments;
              faiss_index :=
                Some (fun _ _ => Returned [(0%Z, 0%Q); (2%Z, (1 # 1)%Q)]);
              faiss_meta := faiss_meta example_judgments |}
           None (Some 2%Z)
           (fun _ _ => Returned [(0%Z, 0%Q); (2%Z, (1 # 1)%Q)])
           (fun _ => Returned [(1 # 2)%Q; (1 # 3)%Q])
           [(1 # 2)%Q; (1 # 3)%Q]
           [(0%Z, 0%Q); (2%Z, (1 # 1)%Q)] (2%Z, (1 # 1)%Q)
           eq_refl eq_refl eq_refl eq_refl).
  - right. left. reflexivity.
  - cbn. lia.
Defined.
